(** * Roshines block editor: document model, mutation engine, sync layer

    A shallow embedding of the block editor of the blogging platform
    (src/types.ts, src/components/BlockEditor.tsx and the post detail view)
    together with the properties of its specification.

    Conventions of the embedding:
    - a JavaScript string is a [string]; a JavaScript number that holds a
      pixel count or a percentage is a rational [Q] (the clamp of the resize
      only compares numbers, and 20 and 100 are exact in both worlds);
      an index returned by [findIndex] is a [Z], with [-1] for "not found";
    - an optional field [f?: T] is an [option T];
    - a handler of the component does not touch the host's state itself: it
      calls the callbacks it closes over ([onChange], the state setters, ...).
      A handler is therefore embedded as the list of calls it makes, in
      order (type [Effect]); the host that owns the sequence interprets
      them ([hostBlocks]);
    - [Math.random().toString(36)] is an input of [addBlock]: the string the
      runtime produced for that call. *)

From Stdlib Require Import List Permutation String Ascii Bool Arith ZArith.
From Stdlib Require Import QArith Qminmax Lia Lqa.
From Stdlib Require Import Sorted.
Import ListNotations.

Local Open Scope string_scope.
Local Open Scope list_scope.

(** ** JavaScript array and string primitives used by the editor *)

Section JSArray.
Context {A : Type}.

(** [Array.prototype.findIndex]: index of the first element that satisfies
    the predicate, [-1] when there is none. *)
Fixpoint findIndex (p : A -> bool) (l : list A) : Z :=
  match l with
  | [] => (-1)%Z
  | x :: l' =>
      if p x then 0%Z
      else let i := findIndex p l' in
           if (i <? 0)%Z then (-1)%Z else (i + 1)%Z
  end.

(** [arr.splice(start, 0, x)] on a copy of [arr]: a negative [start] counts
    from the end (and stops at 0), a [start] beyond the end means the
    end. *)
Definition splice_insert (l : list A) (start : Z) (x : A) : list A :=
  let len := Z.of_nat (List.length l) in
  let k := if (start <? 0)%Z then Z.max (len + start) 0 else Z.min start len in
  firstn (Z.to_nat k) l ++ x :: skipn (Z.to_nat k) l.

(** [arr[i]] for an integer index: [undefined] (here [None]) out of range. *)
Definition at_index (l : list A) (i : Z) : option A :=
  if (i <? 0)%Z then None else nth_error l (Z.to_nat i).
End JSArray.

(** [s.substr(start, len)] for non-negative arguments. *)
Definition substr (s : string) (start len : nat) : string :=
  String.substring start len s.

(** [s.indexOf(t) !== -1]. *)
Definition includes (s t : string) : bool :=
  match String.index 0 t s with
  | Some _ => true
  | None => false
  end.

(** ** types.ts *)

(** The enum [BlockType] has string values; a block that comes back from the
    document store carries whatever string was saved, so the [type] field is
    the string and the enum members are its named values. *)
Definition BlockType := string.

Module BlockTypes.
Definition Paragraph : BlockType := "paragraph".
Definition Heading1 : BlockType := "h1".
Definition Heading2 : BlockType := "h2".
Definition Heading3 : BlockType := "h3".
Definition Image : BlockType := "image".
Definition Video : BlockType := "video".
Definition Quote : BlockType := "quote".
Definition List : BlockType := "list".
Definition OrderedList : BlockType := "ordered-list".
Definition Code : BlockType := "code".
Definition Divider : BlockType := "divider".

Definition members : list BlockType :=
  [Paragraph; Heading1; Heading2; Heading3; Image; Video; Quote; List;
   OrderedList; Code; Divider].
End BlockTypes.

Inductive TextAlignment : Type := Left | Center | Right.

Record ContentBlock : Type := mkBlock {
  id : string;
  type : BlockType;
  content : string;
  src : option string;
  width : option Q;
  caption : option string;
  align : option TextAlignment;
  language : option string
}.

(** [Partial<ContentBlock>]: every field may be absent. *)
Record PartialBlock : Type := mkPartial {
  p_id : option string;
  p_type : option BlockType;
  p_content : option string;
  p_src : option string;
  p_width : option Q;
  p_caption : option string;
  p_align : option TextAlignment;
  p_language : option string
}.

Definition noFields : PartialBlock :=
  mkPartial None None None None None None None None.

(** The object literals the editor passes to [updateBlock]. *)
Definition typeOnly (t : BlockType) : PartialBlock :=
  mkPartial None (Some t) None None None None None None.
Definition contentOnly (c : string) : PartialBlock :=
  mkPartial None None (Some c) None None None None None.
Definition srcOnly (s : string) : PartialBlock :=
  mkPartial None None None (Some s) None None None None.
Definition widthOnly (w : Q) : PartialBlock :=
  mkPartial None None None None (Some w) None None None.
Definition alignOnly (a : TextAlignment) : PartialBlock :=
  mkPartial None None None None None None (Some a) None.

Definition orElse {A : Type} (new old : option A) : option A :=
  match new with
  | Some v => Some v
  | None => old
  end.

Definition orKeep {A : Type} (new : option A) (old : A) : A :=
  match new with
  | Some v => v
  | None => old
  end.

(** The object spread [{ ...b, ...updates }]. *)
Definition spread (b : ContentBlock) (updates : PartialBlock) : ContentBlock :=
  {| id := orKeep (p_id updates) (id b);
     type := orKeep (p_type updates) (type b);
     content := orKeep (p_content updates) (content b);
     src := orElse (p_src updates) (src b);
     width := orElse (p_width updates) (width b);
     caption := orElse (p_caption updates) (caption b);
     align := orElse (p_align updates) (align b);
     language := orElse (p_language updates) (language b) |}.

Definition ids (blocks : list ContentBlock) : list string := map id blocks.

(** ** The File API, as far as the editor uses it *)

Record File : Type := mkFile {
  file_type : string;     (* the MIME type of the blob *)
  file_base64 : string    (* its bytes, base64-encoded *)
}.

(** The [result] of a [FileReader] after [readAsDataURL]. *)
Definition readAsDataURL (f : File) : string :=
  ("data:" ++ file_type f ++ ";base64," ++ file_base64 f)%string.

Record DataTransferItem : Type := mkItem {
  item_type : string;
  getAsFile : option File
}.

(** ** BlockEditor.tsx: the calls a handler makes *)

#[warnings="-register-all"]
Inductive Effect : Type :=
| OnChange (newBlocks : list ContentBlock)
| SetMenuOpenBlockId (v : option string)
| SetActiveBlockId (v : option string)
| SetTimeout (callback : list Effect) (ms : Z)
| PreventDefault
| ReadFile (blob : File) (onload : string -> list Effect)
| ThrowTypeError.

(** *** Block management *)

Definition updateBlock (readOnly : bool) (blocks : list ContentBlock)
    (blockId : string) (updates : PartialBlock) : list Effect :=
  if readOnly then []
  else
    let newBlocks :=
      map (fun b => if id b =? blockId then spread b updates else b) blocks in
    [OnChange newBlocks; SetMenuOpenBlockId None].

(** The [id] of a new block: [Math.random().toString(36).substr(2, 9)], where
    [rnd] is the string [Math.random().toString(36)]. *)
Definition newId (rnd : string) : string := substr rnd 2 9.

Definition newBlock (rnd : string) (t : BlockType) : ContentBlock :=
  {| id := newId rnd;
     type := t;
     content := EmptyString;
     src := None;
     width := Some 100%Q;
     caption := None;
     align := Some Left;
     language := None |}.

Definition addBlock (readOnly : bool) (blocks : list ContentBlock)
    (afterId : string) (t : BlockType) (rnd : string) : list Effect :=
  if readOnly then []
  else
    let nb := newBlock rnd t in
    let index := findIndex (fun b => id b =? afterId) blocks in
    let newBlocks := splice_insert blocks (index + 1) nb in
    [OnChange newBlocks;
     SetTimeout [SetActiveBlockId (Some (id nb))] 10].

Definition removeBlock (readOnly : bool) (blocks : list ContentBlock)
    (blockId : string) : list Effect :=
  if readOnly || (List.length blocks <=? 1)%nat then []
  else
    let index := findIndex (fun b => id b =? blockId) blocks in
    let newBlocks := filter (fun b => negb (id b =? blockId)) blocks in
    OnChange newBlocks ::
    (if (index >? 0)%Z then
       match at_index newBlocks (index - 1) with
       | Some b => [SetActiveBlockId (Some (id b))]
       | None => [ThrowTypeError]
       end
     else []).

(** The type switcher of the block menu: [updateBlock(block.id, { type })]. *)
Definition retype (readOnly : bool) (blocks : list ContentBlock)
    (blockId : string) (t : BlockType) : list Effect :=
  updateBlock readOnly blocks blockId (typeOnly t).

(** *** The host of the editor

    [EditorView] holds the sequence in a state cell and passes its setter as
    [onChange]; the editor's own cells are [activeBlockId] and
    [menuOpenBlockId].  Timers and file reads complete later: they are queued
    here and run by [flush]. *)

Record Host : Type := mkHost {
  blocks : list ContentBlock;
  activeBlockId : option string;
  menuOpenBlockId : option string;
  defaultPrevented : bool;
  pending : list Effect;
  crashed : bool
}.

Definition perform (h : Host) (e : Effect) : Host :=
  match e with
  | OnChange newBlocks =>
      mkHost newBlocks (activeBlockId h) (menuOpenBlockId h)
             (defaultPrevented h) (pending h) (crashed h)
  | SetMenuOpenBlockId v =>
      mkHost (blocks h) (activeBlockId h) v
             (defaultPrevented h) (pending h) (crashed h)
  | SetActiveBlockId v =>
      mkHost (blocks h) v (menuOpenBlockId h)
             (defaultPrevented h) (pending h) (crashed h)
  | SetTimeout _ _ | ReadFile _ _ =>
      mkHost (blocks h) (activeBlockId h) (menuOpenBlockId h)
             (defaultPrevented h) (pending h ++ [e]) (crashed h)
  | PreventDefault =>
      mkHost (blocks h) (activeBlockId h) (menuOpenBlockId h)
             true (pending h) (crashed h)
  | ThrowTypeError =>
      mkHost (blocks h) (activeBlockId h) (menuOpenBlockId h)
             (defaultPrevented h) (pending h) true
  end.

Definition performAll (h : Host) (es : list Effect) : Host :=
  fold_left perform es h.

(** The sequence the host holds after a handler that was created for
    [blocks] has run. *)
Definition hostBlocks (es : list Effect) (current : list ContentBlock)
  : list ContentBlock :=
  blocks (performAll (mkHost current None None false [] false) es).

(** The block a handler asked to focus, if it asked for one (directly or
    through a timer). *)
Fixpoint focusRequest (es : list Effect) : option string :=
  match es with
  | [] => None
  | SetActiveBlockId (Some i) :: _ => Some i
  | SetTimeout [SetActiveBlockId (Some i)] _ :: _ => Some i
  | _ :: es' => focusRequest es'
  end.

(** The calls a queued timer or file read makes when it completes. *)
Definition complete (e : Effect) : list Effect :=
  match e with
  | SetTimeout callback _ => callback
  | ReadFile blob onload => onload (readAsDataURL blob)
  | _ => []
  end.

(** Runs everything that was queued when [flush] is called. *)
Definition flush (h : Host) : Host :=
  let queued := pending h in
  performAll
    (mkHost (blocks h) (activeBlockId h) (menuOpenBlockId h)
            (defaultPrevented h) [] (crashed h))
    (flat_map complete queued).

(** *** Media handlers *)

(** [handlePaste]: the loop over [e.clipboardData.items] stops at the first
    item whose type contains "image". *)
Fixpoint handlePaste (readOnly : bool) (blocks : list ContentBlock)
    (items : list DataTransferItem) (blockId : string) : list Effect :=
  match items with
  | [] => []
  | it :: rest =>
      if includes (item_type it) "image" then
        PreventDefault ::
        match getAsFile it with
        | Some blob =>
            [ReadFile blob (fun result =>
               updateBlock readOnly blocks blockId
                 (mkPartial None (Some BlockTypes.Image) (Some EmptyString)
                            (Some result) None None None None))]
        | None => []
        end
      else handlePaste readOnly blocks rest blockId
  end.

(** *** MediaBlock: interactive resize *)

(** What [handleResize] reads from [containerRef.current]: its own
    [offsetWidth] and, when it has a parent element, the parent's. *)
Record Container : Type := mkContainer {
  offsetWidth : Z;
  parentOffsetWidth : option Z
}.

(** [x || d] for an integer that may be [undefined]: [0] is falsy. *)
Definition zOr (x : option Z) (d : Z) : Z :=
  match x with
  | Some v => if (v =? 0)%Z then d else v
  | None => d
  end.

(** What the closures [onMouseMove] and [onMouseUp] capture at mouse down. *)
Record Drag : Type := mkDrag {
  startX : Q;
  startWidth : Z;
  parentWidth : Z
}.

Definition handleResize (readOnly : bool) (containerRef : option Container)
    (clientX : Q) : option Drag :=
  if readOnly then None
  else
    Some {| startX := clientX;
            startWidth := zOr (option_map offsetWidth containerRef) 0;
            parentWidth :=
              zOr (match containerRef with
                   | Some c => parentOffsetWidth c
                   | None => None
                   end) 1 |}.

(** The width the drag asks for, in percent of the parent's width. *)
Definition requestedPercent (d : Drag) (clientX : Q) : Q :=
  let diff := clientX - startX d in
  let newWidthPx := inject_Z (startWidth d) + diff in
  (newWidthPx / inject_Z (parentWidth d)) * 100.

(** [Math.min(100, Math.max(20, w))]. *)
Definition newWidthPercent (w : Q) : Q := Qmin 100 (Qmax 20 w).

(** [onMouseMove]; [updateBlock] is the prop the editor passed down. *)
Definition onMouseMove (updateBlock : string -> PartialBlock -> list Effect)
    (block : ContentBlock) (d : Drag) (clientX : Q) : list Effect :=
  updateBlock (id block) (widthOnly (newWidthPercent (requestedPercent d clientX))).

(** *** RichText: the editable surface *)

(** The DOM node behind [contentEditableRef] and whether
    [document.activeElement] is that node. *)
Record Surface : Type := mkSurface {
  innerHTML : string;
  isActiveElement : bool
}.

(** The effect with dependency list [[html]] ("Sync Content: Prop -> DOM"). *)
Definition syncProp (html : string) (current : option Surface) : option Surface :=
  match current with
  | Some el =>
      if negb (html =? innerHTML el) then
        if negb (isActiveElement el) then Some (mkSurface html (isActiveElement el))
        else Some el
      else Some el
  | None => None
  end.

(** The effect with the empty dependency list ("Initial Render Sync"). *)
Definition syncInitial (html : string) (current : option Surface) : option Surface :=
  match current with
  | Some el =>
      if negb (innerHTML el =? html) then Some (mkSurface html (isActiveElement el))
      else Some el
  | None => None
  end.

(** [handleInput], bound to [onInput] and to [onBlur]: calls [onChange] with
    the markup of the surface. *)
Definition handleInput (onChange : string -> list Effect) (el : Surface)
  : list Effect :=
  onChange (innerHTML el).

(** *** A mounted text block

    [renderBlockContent] gives the surface of a block [html = block.content]
    and [onChange = val => updateBlock(block.id, { content: val })].  The
    record below is the editor together with the surface of the block at
    position [slot].  The [autoFocus] effect of the surface runs only when
    [activeBlockId] starts to name the block; none of the events below
    changes [activeBlockId] to do so, and the focus flag is set by the
    [Focus] event. *)

Record Mounted : Type := mkMounted {
  m_readOnly : bool;
  m_blocks : list ContentBlock;
  slot : nat;
  ref : option Surface
}.

(** The [html] prop of the surface for a given sequence. *)
Definition htmlProp (bs : list ContentBlock) (k : nat) : option string :=
  option_map content (nth_error bs k).

(** A re-render with a new sequence: React runs the [[html]] effect only
    when the prop differs from the one of the previous render. *)
Definition rerender (m : Mounted) (newBlocks : list ContentBlock) : Mounted :=
  let before := htmlProp (m_blocks m) (slot m) in
  let after := htmlProp newBlocks (slot m) in
  let ref' :=
    match after with
    | Some html =>
        if match before with
           | Some old => old =? html
           | None => false
           end
        then ref m
        else syncProp html (ref m)
    | None => ref m
    end in
  mkMounted (m_readOnly m) newBlocks (slot m) ref'.

(** [commonProps.onChange] of the block rendered at [slot]. *)
Definition commonOnChange (m : Mounted) (val : string) : list Effect :=
  match nth_error (m_blocks m) (slot m) with
  | Some block => updateBlock (m_readOnly m) (m_blocks m) (id block) (contentOnly val)
  | None => []
  end.

Inductive SurfaceEvent : Type :=
| ExternalChange (newBlocks : list ContentBlock)  (* the host passes a new [blocks] prop *)
| Focus
| Input (markup : string)        (* the user edited the surface *)
| Blur.

Definition withRef (m : Mounted) (r : option Surface) : Mounted :=
  mkMounted (m_readOnly m) (m_blocks m) (slot m) r.

Definition surfaceStep (m : Mounted) (ev : SurfaceEvent) : Mounted :=
  match ev with
  | ExternalChange newBlocks => rerender m newBlocks
  | Focus =>
      withRef m (option_map (fun el => mkSurface (innerHTML el) true) (ref m))
  | Input markup =>
      match ref m with
      | Some el =>
          let el' := mkSurface markup (isActiveElement el) in
          let m' := withRef m (Some el') in
          rerender m' (hostBlocks (handleInput (commonOnChange m') el') (m_blocks m'))
      | None => m
      end
  | Blur =>
      match ref m with
      | Some el =>
          let el' := mkSurface (innerHTML el) false in
          let m' := withRef m (Some el') in
          rerender m' (hostBlocks (handleInput (commonOnChange m') el') (m_blocks m'))
      | None => m
      end
  end.

Definition displayed (m : Mounted) : option string :=
  option_map innerHTML (ref m).

Definition focused (m : Mounted) : bool :=
  match ref m with
  | Some el => isActiveElement el
  | None => false
  end.

(** *** Rendering *)

Record RichTextProps : Type := mkRichText {
  tagName : string;
  placeholder : string;
  html : string;
  rt_readOnly : bool;
  autoFocus : bool;
  rt_block : string        (* the [block.id] its handlers close over *)
}.

#[warnings="-register-all"]
Inductive VNode : Type :=
| Elem (tag : string) (children : list VNode)
| Text (s : string)
| Icon (name : string)
| Img (source : string) (widthPercent : Q)
| Iframe (source : option string)
| RichText (props : RichTextProps)
| MediaBlock (block : ContentBlock) (readOnly isVideo : bool).

(** [s || d] for an optional string: [undefined] and the empty string are
    falsy. *)
Definition strOr (s : option string) (d : string) : string :=
  match s with
  | Some v => if v =? EmptyString then d else v
  | None => d
  end.

(** [block.width || 100]. *)
Definition widthOr100 (w : option Q) : Q :=
  match w with
  | Some v => if Qeq_bool v 0 then 100 else v
  | None => 100
  end.

(** [renderBlockContent] of the editor (class names and inline styles are
    left out). *)
Definition renderBlockContent (readOnly : bool) (activeBlockId : option string)
    (block : ContentBlock) : VNode :=
  let isFocused :=
    match activeBlockId with
    | Some a => a =? id block
    | None => false
    end in
  let surface (tag ph : string) : VNode :=
    RichText (mkRichText tag ph (content block) readOnly isFocused (id block)) in
  let t := type block in
  if t =? BlockTypes.Heading1 then surface "h1" "Heading 1"
  else if t =? BlockTypes.Heading2 then surface "h2" "Heading 2"
  else if t =? BlockTypes.Heading3 then surface "h3" "Heading 3"
  else if t =? BlockTypes.Quote then
    Elem "div" [Icon "Quote"; surface "div" "Empty quote..."]
  else if t =? BlockTypes.Code then
    Elem "div" [Elem "div" [Text (strOr (language block) "Code")];
                surface "pre" "Write code..."]
  else if t =? BlockTypes.List then
    Elem "div" [Elem "div" []; surface "div" "List item"]
  else if t =? BlockTypes.OrderedList then
    Elem "div" [Elem "span" [Text "1."]; surface "div" "List item"]
  else if t =? BlockTypes.Image then MediaBlock block readOnly false
  else if t =? BlockTypes.Video then MediaBlock block readOnly true
  else if t =? BlockTypes.Divider then Elem "hr" []
  else surface "div" "Type '/' for commands...".

(** The body of the editor: one entry per block. *)
Definition renderEditorBody (readOnly : bool) (activeBlockId : option string)
    (blocks : list ContentBlock) : list VNode :=
  map (renderBlockContent readOnly activeBlockId) blocks.

Definition doubleQuote : string := String (ascii_of_nat 34) EmptyString.

(** The [switch] of [PostDetailView]; [None] is the [null] of its [default]
    branch. *)
Definition renderPostBlock (block : ContentBlock) : option VNode :=
  let t := type block in
  if t =? BlockTypes.Heading1 then Some (Elem "h2" [Text (content block)])
  else if t =? BlockTypes.Heading2 then Some (Elem "h3" [Text (content block)])
  else if t =? BlockTypes.Paragraph then Some (Elem "p" [Text (content block)])
  else if t =? BlockTypes.Quote then
    Some (Elem "blockquote" [Text doubleQuote; Text (content block); Text doubleQuote])
  else if t =? BlockTypes.Image then
    Some (Elem "figure"
            (Img (strOr (src block) "https://picsum.photos/800/400")
                 (widthOr100 (width block))
             :: match caption block with
                | Some c => if c =? EmptyString then [] else [Elem "figcaption" [Text c]]
                | None => []
                end))
  else None.

(** [post.blocks.map(block => ...)]. *)
Definition renderPostBody (blocks : list ContentBlock) : list (option VNode) :=
  map renderPostBlock blocks.

(** The types each renderer has a [case] for. *)
Definition postViewCases : list BlockType :=
  [BlockTypes.Heading1; BlockTypes.Heading2; BlockTypes.Paragraph;
   BlockTypes.Quote; BlockTypes.Image].

Definition editorCases : list BlockType :=
  [BlockTypes.Heading1; BlockTypes.Heading2; BlockTypes.Heading3;
   BlockTypes.Quote; BlockTypes.Code; BlockTypes.List; BlockTypes.OrderedList;
   BlockTypes.Image; BlockTypes.Video; BlockTypes.Divider].

(** *** Editing sessions *)

(** The two structural operations of a session. *)
Inductive Op : Type :=
| AddBlock (afterId : string) (t : BlockType) (rnd : string)
| RemoveBlock (blockId : string).

Definition handler (readOnly : bool) (bs : list ContentBlock) (op : Op)
  : list Effect :=
  match op with
  | AddBlock afterId t rnd => addBlock readOnly bs afterId t rnd
  | RemoveBlock blockId => removeBlock readOnly bs blockId
  end.

(** One operation, followed by the re-render with the sequence the host now
    holds. *)
Definition applyOp (readOnly : bool) (bs : list ContentBlock) (op : Op)
  : list ContentBlock :=
  hostBlocks (handler readOnly bs op) bs.

Definition applyOps (readOnly : bool) (ops : list Op) (bs : list ContentBlock)
  : list ContentBlock :=
  fold_left (applyOp readOnly) ops bs.

(** Every identifier drawn during the session was new at the time. *)
Fixpoint freshDraws (readOnly : bool) (ops : list Op) (bs : list ContentBlock)
  : Prop :=
  match ops with
  | [] => True
  | op :: ops' =>
      match op with
      | AddBlock _ _ rnd => ~ In (newId rnd) (ids bs)
      | RemoveBlock _ => True
      end /\ freshDraws readOnly ops' (applyOp readOnly bs op)
  end.

(** *** Data of the application used in examples *)

(** The sequence [EditorView] starts a new post with. *)
Definition initialBlocks : list ContentBlock :=
  [mkBlock "1" BlockTypes.Paragraph EmptyString None (Some 100%Q) None None None].

(** The body of the first entry of [MOCK_POSTS] (the image URL shortened). *)
Definition mockBlocks : list ContentBlock :=
  [mkBlock "b1" BlockTypes.Heading1 "Arrival in Arashiyama"
           None (Some 100%Q) None None None;
   mkBlock "b2" BlockTypes.Paragraph "The morning mist clung to the mountains."
           None (Some 100%Q) None None None;
   mkBlock "b3" BlockTypes.Image EmptyString
           (Some "https://images.unsplash.com/photo-1624253321171")
           (Some 100%Q) None None None;
   mkBlock "b4" BlockTypes.Quote "Beauty lies in the spaces between things."
           None (Some 100%Q) None None None].

(** A media block that fills its parent of 1000 pixels: the container
    [handleResize] measures is 1000 pixels wide as well. *)
Definition fullWidthContainer : option Container :=
  Some (mkContainer 1000 (Some 1000%Z)).

(** A clipboard that holds a screenshot: its HTML fragment and the picture
    itself. *)
Definition screenshot : File := mkFile "image/png" "iVBORw0KGgoAAAANSUhEUgAAAAEAAAABCAYAAAAfFcSJ".

Definition clipboardWithImage : list DataTransferItem :=
  [mkItem "text/html" None; mkItem "image/png" (Some screenshot)].

(** A paragraph in which a draft was typed. *)
Definition draftBlocks : list ContentBlock :=
  [mkBlock "p1" BlockTypes.Paragraph "draft" None (Some 100%Q) None (Some Left) None;
   mkBlock "p2" BlockTypes.Paragraph "next" None (Some 100%Q) None (Some Left) None].

(** A block saved by a later version of the editor, of a type this version
    has no case for. *)
Definition calloutBlock : ContentBlock :=
  mkBlock "c1" "callout" "Bring an umbrella." None (Some 100%Q) None (Some Left) None.

(** The editor showing [draftBlocks], the caret in the surface of the first
    block. *)
Definition typingInDraft : Mounted :=
  mkMounted false draftBlocks 0 (Some (mkSurface "draft" true)).

(** The same sequence after the assistant replaced the text of the first
    block. *)
Definition generatedBlocks : list ContentBlock :=
  hostBlocks (updateBlock false draftBlocks "p1" (contentOnly "generated")) draftBlocks.

(** ** More of BlockEditor.tsx *)

(** *** String primitives *)

(** [s.replace(pat, rep)] for a string pattern and a replacement without
    [$]: the first occurrence of [pat] is replaced. *)
Definition replaceFirst (pat rep s : string) : string :=
  match String.index 0 pat s with
  | Some n =>
      (substring 0 n s ++ rep ++
       substring (n + String.length pat)
                 (String.length s - (n + String.length pat)) s)%string
  | None => s
  end.

(** [s.replace(/pat/g, '')] for a non-empty literal pattern: the matches
    are taken from left to right and do not overlap.  [skip] counts the
    characters of a match that are still to be dropped. *)
Fixpoint removeAllFrom (pat : string) (skip : nat) (s : string) : string :=
  match s with
  | EmptyString => EmptyString
  | String c s' =>
      match skip with
      | S k => removeAllFrom pat k s'
      | O =>
          if String.prefix pat s
          then removeAllFrom pat (String.length pat - 1) s'
          else String c (removeAllFrom pat 0 s')
      end
  end.

Definition removeAll (pat s : string) : string := removeAllFrom pat 0 s.

(** *** AI generation *)

(** The calls of [handleAiGenerate]: calls of the mutation layer, the
    setters of the assistant's own state cells, and the request to the
    text-generation service, which resumes the handler with the text the
    service answered. *)
#[warnings="-register-all"]
Inductive AiCall : Type :=
| Mutation (e : Effect)
| SetIsGenerating (v : bool)
| SetShowAiModal (v : option string)
| SetAiPrompt (v : string)
| GenerateBlogContent (prompt context : string) (resume : string -> list AiCall).

(** [generatedText.replace(/```html/g, '').replace(/```/g, '')]. *)
Definition cleanText (generatedText : string) : string :=
  removeAll "```" (removeAll "```html" generatedText).

(** The content of the block before the target, as [handleAiGenerate]
    computes it: [None] stands for the [TypeError] of reading [content] of
    [undefined]. *)
Definition aiContext (blocks : list ContentBlock) (targetBlockId : string)
  : option string :=
  let prevIndex :=
    (findIndex (fun b => (id b =? targetBlockId)%string) blocks - 1)%Z in
  if (prevIndex >=? 0)%Z then option_map content (at_index blocks prevIndex)
  else Some EmptyString.

Section AiGeneration.
(** [String.prototype.trim] of the runtime. *)
Variable trim : string -> string.

Definition handleAiGenerate (readOnly : bool) (blocks : list ContentBlock)
    (aiPrompt targetBlockId : string) : list AiCall :=
  if trim aiPrompt =? EmptyString then []
  else
    SetIsGenerating true ::
    match aiContext blocks targetBlockId with
    | Some context =>
        [GenerateBlogContent aiPrompt context (fun generatedText =>
           map Mutation
               (updateBlock readOnly blocks targetBlockId
                  (contentOnly (cleanText generatedText)))
           ++ [SetIsGenerating false; SetShowAiModal None;
               SetAiPrompt EmptyString])]
    | None => [Mutation ThrowTypeError]
    end.
End AiGeneration.

(** The mutation calls the handler makes once the service has answered
    [answer]. *)
Fixpoint mutationsAfter (answer : string) (calls : list AiCall) : list Effect :=
  match calls with
  | [] => []
  | GenerateBlogContent _ _ resume :: rest =>
      flat_map (fun c => match c with Mutation e => [e] | _ => [] end)
               (resume answer)
      ++ mutationsAfter answer rest
  | Mutation e :: rest => e :: mutationsAfter answer rest
  | _ :: rest => mutationsAfter answer rest
  end.

(** *** Keyboard *)

Record KeyboardEvent : Type := mkKey {
  key : string;
  shiftKey : bool
}.

(** [commonProps.onKeyDown] of the surface of [block]. *)
Definition onKeyDown (readOnly : bool) (blocks : list ContentBlock)
    (block : ContentBlock) (rnd : string) (e : KeyboardEvent) : list Effect :=
  (if (key e =? "Enter") && negb (shiftKey e)
   then PreventDefault :: addBlock readOnly blocks (id block) BlockTypes.Paragraph rnd
   else [])
  ++
  (if (key e =? "Backspace") && (content block =? EmptyString)
   then PreventDefault :: removeBlock readOnly blocks (id block)
   else []).

(** The button "Add block at end":
    [addBlock(blocks[blocks.length-1].id, BlockType.Paragraph)]. *)
Definition addBlockAtEnd (readOnly : bool) (blocks : list ContentBlock)
    (rnd : string) : list Effect :=
  match at_index blocks (Z.of_nat (List.length blocks) - 1) with
  | Some last => addBlock readOnly blocks (id last) BlockTypes.Paragraph rnd
  | None => [ThrowTypeError]
  end.

(** *** MediaBlock: embedding a video, the two states of the block *)

(** The [url] that the [onBlur] of the embed field stores. *)
Definition embedUrl (value : string) : string :=
  if includes value "youtube.com/watch?v=" then replaceFirst "watch?v=" "embed/" value
  else if includes value "youtu.be/" then replaceFirst "youtu.be/" "youtube.com/embed/" value
  else value.

Definition onBlurEmbed (updateBlock : string -> PartialBlock -> list Effect)
    (block : ContentBlock) (value : string) : list Effect :=
  updateBlock (id block) (srcOnly (embedUrl value)).

(** What [MediaBlock] shows: the prompt to upload or embed, or the media in
    its frame with the controls that are rendered. *)
Inductive MediaView : Type :=
| UploadPrompt (isVideo : bool)
| MediaFrame (isVideo : bool) (source : option string) (widthPercent : Q)
             (alignment : option TextAlignment)
             (resizeHandle alignControls : bool).

Definition falsy (s : option string) : bool :=
  match s with
  | Some v => v =? EmptyString
  | None => true
  end.

Definition renderMediaBlock (block : ContentBlock) (readOnly isVideo : bool)
  : MediaView :=
  if falsy (src block) && (content block =? EmptyString) then UploadPrompt isVideo
  else MediaFrame isVideo (src block) (widthOr100 (width block)) (align block)
                  (negb readOnly) (negb readOnly).

(** ** The application shell (posts, views, subscribers) *)

Inductive Category : Type :=
| Food | Travel | Fashion | Technology | Lifestyle | Journal.

Definition Category_eqb (a b : Category) : bool :=
  match a, b with
  | Food, Food | Travel, Travel | Fashion, Fashion
  | Technology, Technology | Lifestyle, Lifestyle | Journal, Journal => true
  | _, _ => false
  end.

(** ['draft' | 'published']. *)
Inductive PostStatus : Type := draft | published.

Definition PostStatus_eqb (a b : PostStatus) : bool :=
  match a, b with
  | draft, draft | published, published => true
  | _, _ => false
  end.

Module Post.
Record BlogPost : Type := mk {
  id : string;
  title : string;
  excerpt : string;
  coverImage : string;
  category : Category;
  tags : list string;
  blocks : list ContentBlock;
  author : string;
  publishedAt : string;
  scheduledAt : option string;
  status : PostStatus;
  views : Z;
  likesCount : option Z
}.
End Post.

Module Users.
Record User : Type := mk {
  id : string;
  name : string;
  email : string;
  avatar : option string;
  isAdmin : option bool
}.

(** What the mock service keeps in local storage for a registered user. *)
Record StoredUser : Type := mkStored {
  s_id : string;
  s_name : string;
  s_email : string;
  s_password : string;
  s_avatar : string;
  s_isAdmin : bool
}.
End Users.


(** *** HomeView: the list of posts shown *)

Section HomeViewFilter.
(** [String.prototype.toLowerCase] and [trim] of the runtime. *)
Variables toLowerCase trim : string -> string.

Definition matchesQuery (q : string) (p : Post.BlogPost) : bool :=
  includes (toLowerCase (Post.title p)) q
  || includes (toLowerCase (Post.excerpt p)) q
  || existsb (fun t => includes (toLowerCase t) q) (Post.tags p).

(** [filteredPosts]; the selection ['All'] is [None]. *)
Definition filteredPosts (posts : list Post.BlogPost)
    (selectedCategory : option Category) (searchQuery : string)
  : list Post.BlogPost :=
  let filtered :=
    filter (fun p => PostStatus_eqb (Post.status p) published) posts in
  let filtered :=
    match selectedCategory with
    | Some c => filter (fun p => Category_eqb (Post.category p) c) filtered
    | None => filtered
    end in
  if negb (trim searchQuery =? EmptyString) then
    let q := toLowerCase searchQuery in
    filter (matchesQuery q) filtered
  else filtered.
End HomeViewFilter.

(** *** AdminDashboard: the figures of the stats cards *)

Definition totalViews (posts : list Post.BlogPost) : Z :=
  fold_left (fun a b => (a + Post.views b)%Z) posts 0%Z.

Definition publishedCount (posts : list Post.BlogPost) : nat :=
  List.length (filter (fun p => PostStatus_eqb (Post.status p) published) posts).

Definition draftCount (posts : list Post.BlogPost) : nat :=
  List.length (filter (fun p => PostStatus_eqb (Post.status p) draft) posts).

(** *** App: the handlers of the post list and of the subscribers *)

(** [newPosts[i] = post] for an index that [findIndex] returned: the entry
    at [i] is replaced (an index out of range does not occur here and
    leaves the list as it is). *)
Definition assignAt {A : Type} (l : list A) (i : Z) (x : A) : list A :=
  if ((0 <=? i) && (i <? Z.of_nat (List.length l)))%Z
  then firstn (Z.to_nat i) l ++ x :: skipn (S (Z.to_nat i)) l
  else l.

(** The function [handleSavePost] passes to [setPosts], together with the
    value it leaves in [isNewPublish]; [None] stands for the [TypeError] of
    reading [status] of [undefined]. *)
Definition savePostUpdate (prev : list Post.BlogPost) (post : Post.BlogPost)
  : option (list Post.BlogPost * bool) :=
  let existingIndex := findIndex (fun p => Post.id p =? Post.id post) prev in
  if (existingIndex >=? 0)%Z then
    match at_index prev existingIndex with
    | Some old =>
        Some (assignAt prev existingIndex post,
              PostStatus_eqb (Post.status old) draft
              && PostStatus_eqb (Post.status post) published)
    | None => None
    end
  else Some (post :: prev, PostStatus_eqb (Post.status post) published).

(** [posts.find(p => p.id === postId)]. *)
Definition findPost (posts : list Post.BlogPost) (postId : string)
  : option Post.BlogPost :=
  find (fun p => Post.id p =? postId) posts.

(** The function [handleDeletePost] passes to [setPosts] when the dialog was
    confirmed; without confirmation no call is made. *)
Definition handleDeletePost (confirmed : bool) (prev : list Post.BlogPost)
    (postId : string) : list Post.BlogPost :=
  if confirmed then filter (fun p => negb (Post.id p =? postId)) prev
  else prev.



(** *** App: the router *)








(** *** EditorView *)

Record EditorFields : Type := mkFields {
  e_title : string;
  e_excerpt : string;
  e_category : Category;
  e_blocks : list ContentBlock;
  e_status : PostStatus;
  e_coverImage : string
}.

(** The initial values of the state cells of [EditorView]. *)
Definition initialFields (initialPost : option Post.BlogPost) : EditorFields :=
  {| e_title := strOr (option_map Post.title initialPost) EmptyString;
     e_excerpt := strOr (option_map Post.excerpt initialPost) EmptyString;
     e_category :=
       match initialPost with
       | Some p => Post.category p
       | None => Lifestyle
       end;
     e_blocks :=
       match initialPost with
       | Some p => Post.blocks p
       | None => initialBlocks
       end;
     e_status :=
       match initialPost with
       | Some p => Post.status p
       | None => draft
       end;
     e_coverImage :=
       strOr (option_map Post.coverImage initialPost)
             "https://images.unsplash.com/photo-1493976040374-85c8e12f0c0e?auto=format&fit=crop&q=80&w=800" |}.

(** The post [handleSave] hands to [onSave]; [rnd] is what
    [Math.random().toString(36)] printed and [now] what
    [new Date().toISOString()] returned. *)
Definition handleSave (initialPost : option Post.BlogPost) (f : EditorFields)
    (rnd now : string) : Post.BlogPost :=
  {| Post.id := strOr (option_map Post.id initialPost) (newId rnd);
     Post.title := strOr (Some (e_title f)) "Untitled Post";
     Post.excerpt := e_excerpt f;
     Post.category := e_category f;
     Post.blocks := e_blocks f;
     Post.status := e_status f;
     Post.coverImage := e_coverImage f;
     Post.author := strOr (option_map Post.author initialPost) "Roshni";
     Post.publishedAt := strOr (option_map Post.publishedAt initialPost) now;
     Post.tags := [];
     Post.views := zOr (option_map Post.views initialPost) 0;
     Post.scheduledAt := None;
     Post.likesCount := None |}.


(** ** The mock service over local storage *)

(** [getStorage]: the parsed array under a key, [[]] when the key is not
    there. *)
Definition getStorage {A : Type} (stored : option (list A)) : list A :=
  match stored with
  | Some data => data
  | None => []
  end.

(** [arr.splice(start, 1)] on [arr], with [start] read as in
    [splice_insert]. *)
Definition splice_remove {A : Type} (l : list A) (start : Z) : list A :=
  let len := Z.of_nat (List.length l) in
  let k := if (start <? 0)%Z then Z.max (len + start) 0 else Z.min start len in
  firstn (Z.to_nat k) l ++ skipn (S (Z.to_nat k)) l.

(** [Error] thrown by a service function, or its result. *)
Inductive Result (A : Type) : Type :=
| Ok (value : A)
| Throw (message : string).
Arguments Ok {A} value.
Arguments Throw {A} message.

(** *** Likes *)

Module Likes.
Record Like : Type := mk {
  postId : string;
  userId : string
}.
End Likes.

Record LikeStatus : Type := mkLikeStatus {
  liked : bool;
  count : nat
}.

Definition sameLike (postId userId : string) (l : Likes.Like) : bool :=
  (Likes.postId l =? postId) && (Likes.userId l =? userId).

Definition likesOfPost (postId : string) (likes : list Likes.Like) : nat :=
  List.length (filter (fun l => Likes.postId l =? postId) likes).

(** [toggleLike]: what is stored afterwards and the status returned. *)
Definition toggleLike (stored : option (list Likes.Like))
    (postId userId : string) : option (list Likes.Like) * LikeStatus :=
  let likes := getStorage stored in
  let index := findIndex (sameLike postId userId) likes in
  let likes' :=
    if (index >=? 0)%Z then splice_remove likes index
    else likes ++ [Likes.mk postId userId] in
  (Some likes',
   {| liked := negb (index >=? 0)%Z; count := likesOfPost postId likes' |}).

Definition getLikeStatus (stored : option (list Likes.Like))
    (postId : string) (userId : option string) : LikeStatus :=
  let likes := getStorage stored in
  {| count := likesOfPost postId likes;
     liked :=
       match userId with
       | Some u =>
           if u =? EmptyString then false
           else existsb (sameLike postId u) likes
       | None => false
       end |}.

(** The two state cells of [LikeButton]. *)
Record LikeButton : Type := mkLikeButton {
  shownLikes : Z;
  shownLiked : bool
}.

(** [handleToggle]: without a user only [onLoginReq] is called; otherwise
    the button first shows its own guess and then what the service
    returned. *)
Inductive ToggleOutcome : Type :=
| LoginRequested
| Toggled (optimistic final : LikeButton) (stored : option (list Likes.Like)).

Definition handleToggle (currentUser : option Users.User) (button : LikeButton)
    (stored : option (list Likes.Like)) (postId : string) : ToggleOutcome :=
  match currentUser with
  | None => LoginRequested
  | Some user =>
      let newLiked := negb (shownLiked button) in
      let optimistic :=
        mkLikeButton (if newLiked then shownLikes button + 1
                      else shownLikes button - 1)%Z newLiked in
      let (stored', res) := toggleLike stored postId (Users.id user) in
      Toggled optimistic
              (mkLikeButton (Z.of_nat (count res)) (liked res))
              stored'
  end.

(** *** Accounts *)

Section Accounts.
(** [ADMIN_CREDS]; the properties below hold whatever the two strings
    are. *)
Variables adminEmail adminPassword : string.
(** [encodeURIComponent] of the runtime. *)
Variable encodeURIComponent : string -> string.

Definition adminUser : Users.User :=
  Users.mk "admin-roshni" "Roshni" adminEmail
    (Some "https://images.unsplash.com/photo-1516575150278-77136aed6920?auto=format&fit=crop&q=80&w=200")
    (Some true).

(** [const { password: _, ...userInfo } = user]. *)
Definition userInfo (u : Users.StoredUser) : Users.User :=
  Users.mk (Users.s_id u) (Users.s_name u) (Users.s_email u)
           (Some (Users.s_avatar u)) (Some (Users.s_isAdmin u)).

Definition loginUser (stored : option (list Users.StoredUser))
    (email password : string) : Result Users.User :=
  if email =? adminEmail then
    if password =? adminPassword then Ok adminUser
    else Throw "Invalid password for admin account"
  else
    match find (fun u => (Users.s_email u =? email)
                         && (Users.s_password u =? password))
               (getStorage stored) with
    | Some user =>
        let info := userInfo user in
        Ok (Users.mk (Users.id info) (Users.name info) (Users.email info)
                     (Users.avatar info) (Some false))
    | None => Throw "Invalid email or password"
    end.

Definition registerUser (stored : option (list Users.StoredUser))
    (name email password rnd : string)
  : option (list Users.StoredUser) * Result Users.User :=
  if email =? adminEmail
  then (stored, Throw "This email is reserved for the administrator.")
  else
    let users := getStorage stored in
    match find (fun u => Users.s_email u =? email) users with
    | Some _ => (stored, Throw "User already exists")
    | None =>
        let newUser :=
          Users.mkStored (newId rnd) name email password
            ("https://ui-avatars.com/api/?name=" ++ encodeURIComponent name
             ++ "&background=random&color=fff")%string
            false in
        (Some (users ++ [newUser]), Ok (userInfo newUser))
    end.
End Accounts.

(** *** Comments *)

Module Comments.
Record Comment : Type := mk {
  id : string;
  postId : string;
  userId : string;
  userName : string;
  userAvatar : option string;
  content : string;
  createdAt : string
}.
End Comments.

(** [Array.prototype.sort] with a comparator: the sort is stable, and for a
    comparator that orders the elements consistently its result is the one
    of this insertion sort. *)
Section Sort.
Context {A : Type}.
Variable compareFn : A -> A -> Z.

Fixpoint insertSorted (x : A) (l : list A) : list A :=
  match l with
  | [] => [x]
  | y :: l' =>
      if (compareFn x y <=? 0)%Z then x :: l
      else y :: insertSorted x l'
  end.

Definition sortWith (l : list A) : list A := fold_right insertSorted [] l.
End Sort.

Section CommentService.
(** [new Date(s).getTime()] for the date strings that are stored. *)
Variable getTime : string -> Z.

Definition newestFirst (a b : Comments.Comment) : Z :=
  (getTime (Comments.createdAt b) - getTime (Comments.createdAt a))%Z.

(** [a] may stand before [b]: it is not older. *)
Definition notOlder (a b : Comments.Comment) : Prop :=
  (getTime (Comments.createdAt b) <= getTime (Comments.createdAt a))%Z.

Definition getComments (stored : option (list Comments.Comment))
    (postId : string) : list Comments.Comment :=
  sortWith newestFirst
    (filter (fun c => Comments.postId c =? postId) (getStorage stored)).
End CommentService.

(** [addComment]; [rnd] is what [Math.random().toString(36)] printed and
    [now] what [new Date().toISOString()] returned. *)
Definition addComment (stored : option (list Comments.Comment))
    (postId : string) (user : Users.User) (content rnd now : string)
  : option (list Comments.Comment) * Comments.Comment :=
  let newComment :=
    Comments.mk (newId rnd) postId (Users.id user) (Users.name user)
                (Users.avatar user) content now in
  (Some (getStorage stored ++ [newComment]), newComment).

(** *** Data of the application used in examples, continued *)

(** The first entry of [MOCK_POSTS] (with a fixed date), and the second one
    as a draft with its blocks taken out. *)
Definition kyotoPost : Post.BlogPost :=
  Post.mk "1" "The Art of Slow Living in Kyoto"
          "Discovering peace in the ancient capital through tea ceremonies and hidden gardens."
          "https://images.unsplash.com/photo-1493976040374-85c8e12f0c0e?auto=format&fit=crop&q=80&w=800"
          Travel ["Japan"; "Mindfulness"; "Travel"] mockBlocks "Roshni"
          "2023-10-15T09:00:00.000Z" None published 1240 None.

Definition wardrobePost : Post.BlogPost :=
  Post.mk "2" "Minimalist Wardrobe Essentials"
          "Building a capsule wardrobe that lasts a lifetime with just 20 items."
          "https://images.unsplash.com/photo-1483985988355-763728e1935b?auto=format&fit=crop&q=80&w=800"
          Fashion ["Style"; "Sustainable"; "Minimalism"] [] "Roshni"
          "2023-10-14T09:00:00.000Z" None draft 850 None.

(** Three stored comments, two of them on post "1", and the readings of
    their dates in milliseconds. *)
Definition firstComment : Comments.Comment :=
  Comments.mk "c1" "1" "u7k2" "Mira" None "A calm read."
              "2024-01-01T08:00:00.000Z".

Definition storedComments : list Comments.Comment :=
  [firstComment;
   Comments.mk "c2" "2" "u7k2" "Mira" None "Noted for spring."
               "2024-01-03T08:00:00.000Z";
   Comments.mk "c3" "1" "a9d3" "Ines" None "I was there in May."
               "2024-01-02T08:00:00.000Z"].

Definition epochMs (date : string) : Z :=
  if date =? "2024-01-01T08:00:00.000Z" then 1704096000000
  else if date =? "2024-01-02T08:00:00.000Z" then 1704182400000
  else if date =? "2024-01-03T08:00:00.000Z" then 1704268800000
  else 0.

Definition reader : Users.User :=
  Users.mk "u7k2" "Mira" "mira@example.org" None (Some false).

(** *** CommentSection *)

(** [handleSubmit]: [None] when it returns before calling the service;
    otherwise the comments shown afterwards, the content of the input and
    what is stored. *)
Definition handleSubmit (trim : string -> string)
    (currentUser : option Users.User) (newComment : string)
    (shown : list Comments.Comment) (stored : option (list Comments.Comment))
    (postId rnd now : string)
  : option (list Comments.Comment * string * option (list Comments.Comment)) :=
  match currentUser with
  | None => None
  | Some user =>
      if trim newComment =? EmptyString then None
      else
        let (stored', added) := addComment stored postId user newComment rnd now in
        Some (added :: shown, EmptyString, stored')
  end.

(** * Properties *)

(** ** Arrays *)

Section JSArrayFacts.
Context {A : Type}.
Implicit Types (p : A -> bool) (l : list A).

Lemma findIndex_range p l :
  (-1 <= findIndex p l < Z.of_nat (List.length l))%Z.
Proof.
  induction l as [|x l IH]; simpl; [lia|].
  destruct (p x); [lia|].
  destruct (findIndex p l <? 0)%Z eqn:E; [lia|].
  apply Z.ltb_ge in E. lia.
Qed.

Lemma findIndex_none p l :
  (forall x, In x l -> p x = false) -> findIndex p l = (-1)%Z.
Proof.
  induction l as [|x l IH]; simpl; intros H; [reflexivity|].
  rewrite (H x) by now left.
  rewrite IH by (intros; apply H; now right). reflexivity.
Qed.

(** [findIndex] returns the first position that satisfies the predicate. *)
Lemma findIndex_first p l (k : nat) (x : A) :
  nth_error l k = Some x -> p x = true ->
  (forall j y, (j < k)%nat -> nth_error l j = Some y -> p y = false) ->
  findIndex p l = Z.of_nat k.
Proof.
  revert k. induction l as [|a l IH]; intros [|k] Hk Hp Hbefore; simpl in *;
    try discriminate.
  - injection Hk as ->. now rewrite Hp.
  - rewrite (Hbefore 0%nat a) by (simpl; auto; lia).
    rewrite (IH k Hk Hp).
    + destruct (Z.of_nat k <? 0)%Z eqn:E; [apply Z.ltb_lt in E|]; lia.
    + intros j y Hj Hy. apply (Hbefore (S j) y); [lia|exact Hy].
Qed.

(** What precedes the first match is untouched by the filter that drops
    the matches. *)
Lemma filter_before_first p l (k j : nat) :
  findIndex p l = Z.of_nat k -> (j < k)%nat ->
  nth_error (filter (fun x => negb (p x)) l) j = nth_error l j.
Proof.
  revert k j. induction l as [|a l IH]; intros k j Hf Hj; simpl in *; [lia|].
  destruct (p a) eqn:Ha; simpl.
  - lia.
  - destruct (findIndex p l <? 0)%Z eqn:E; [lia|].
    destruct j as [|j]; [reflexivity|]. simpl.
    apply (IH (Nat.pred k)); lia.
Qed.

Lemma splice_insert_length l start x :
  List.length (splice_insert l start x) = S (List.length l).
Proof.
  unfold splice_insert.
  rewrite length_app. simpl.
  rewrite Nat.add_succ_r, <- length_app, firstn_skipn. reflexivity.
Qed.

Lemma splice_insert_front l x : splice_insert l 0 x = x :: l.
Proof.
  unfold splice_insert. simpl.
  replace (Z.to_nat (Z.min 0 (Z.of_nat (List.length l)))) with 0%nat by lia.
  reflexivity.
Qed.

Lemma splice_insert_permutation l start x :
  Permutation (x :: l) (splice_insert l start x).
Proof.
  unfold splice_insert.
  set (k := Z.to_nat _).
  rewrite <- (firstn_skipn k l) at 1.
  apply Permutation_middle.
Qed.
End JSArrayFacts.

(** ** What the host holds after each handler *)

Implicit Types (blocks current : list ContentBlock).
Implicit Types (blockId afterId rnd : string) (t : BlockType).
Implicit Types (updates : PartialBlock) (b : ContentBlock).

Lemma hostBlocks_nil (current : list ContentBlock) : hostBlocks [] current = current.
Proof. reflexivity. Qed.

Lemma hostBlocks_updateBlock blocks blockId updates current :
  hostBlocks (updateBlock false blocks blockId updates) current =
  map (fun b => if id b =? blockId then spread b updates else b) blocks.
Proof. reflexivity. Qed.

Lemma hostBlocks_addBlock blocks afterId t rnd current :
  hostBlocks (addBlock false blocks afterId t rnd) current =
  splice_insert blocks (findIndex (fun b => id b =? afterId) blocks + 1)
                (newBlock rnd t).
Proof. reflexivity. Qed.

Lemma hostBlocks_removeBlock blocks blockId :
  hostBlocks (removeBlock false blocks blockId) blocks =
  if (List.length blocks <=? 1)%nat then blocks
  else filter (fun b => negb (id b =? blockId)) blocks.
Proof.
  unfold removeBlock. simpl.
  destruct (List.length blocks <=? 1)%nat; [reflexivity|].
  destruct (_ >? 0)%Z; [|reflexivity].
  destruct (at_index _ _); reflexivity.
Qed.

(** ** Identifiers of a sequence *)

Lemma ids_filter (f : ContentBlock -> bool) blocks x :
  In x (ids (filter f blocks)) -> In x (ids blocks).
Proof.
  unfold ids. rewrite !in_map_iff.
  intros (b & <- & Hb). apply filter_In in Hb. exists b. tauto.
Qed.

Lemma NoDup_ids_filter (f : ContentBlock -> bool) blocks :
  NoDup (ids blocks) -> NoDup (ids (filter f blocks)).
Proof.
  induction blocks as [|b bs IH]; simpl; intros H; [constructor|].
  inversion H as [|? ? Hnotin Hrest]; subst.
  destruct (f b); simpl; [constructor|]; auto.
  intros Hin. apply Hnotin. eapply ids_filter, Hin.
Qed.

Lemma ids_spread_map blocks blockId updates :
  p_id updates = None ->
  ids (map (fun b => if id b =? blockId then spread b updates else b) blocks)
  = ids blocks.
Proof.
  intros Hid. unfold ids. rewrite map_map. apply map_ext.
  intros b. destruct (id b =? blockId); [|reflexivity].
  simpl. now rewrite Hid.
Qed.

(** With distinct identifiers the filter of [removeBlock] drops at most one
    block. *)
Lemma filter_id_length blocks blockId :
  NoDup (ids blocks) ->
  (List.length blocks <=
   S (List.length (filter (fun b => negb (id b =? blockId)%string) blocks)))%nat.
Proof.
  induction blocks as [|b bs IH]; simpl; intros H; [lia|].
  inversion H as [|? ? Hnotin Hrest]; subst.
  destruct (id b =? blockId) eqn:E; simpl.
  - apply String.eqb_eq in E. subst blockId.
    assert (Hsame : filter (fun x => negb (id x =? id b)) bs = bs).
    { apply forallb_filter_id. apply forallb_forall. intros x Hx.
      apply negb_true_iff, String.eqb_neq. intros Heq.
      apply Hnotin. rewrite <- Heq. now apply in_map. }
    rewrite Hsame. lia.
  - specialize (IH Hrest). lia.
Qed.

(** With distinct identifiers a block is the first one that carries its
    identifier. *)
Lemma findIndex_of_member blocks (i : nat) (b : ContentBlock) :
  NoDup (ids blocks) -> nth_error blocks i = Some b ->
  findIndex (fun x => id x =? id b) blocks = Z.of_nat i.
Proof.
  intros Hnd Hi.
  apply (findIndex_first _ _ i b Hi); [apply String.eqb_refl|].
  intros j y Hj Hy. apply String.eqb_neq. intros Heq.
  assert (Hlen : (j < List.length (ids blocks))%nat).
  { unfold ids. rewrite length_map. apply nth_error_Some. congruence. }
  pose proof (proj1 (NoDup_nth_error (ids blocks)) Hnd j i Hlen) as Huniq.
  unfold ids in Huniq.
  rewrite (map_nth_error id j blocks Hy), (map_nth_error id i blocks Hi) in Huniq.
  specialize (Huniq (f_equal Some Heq)). lia.
Qed.

Lemma findIndex_unknown blocks afterId :
  ~ In afterId (ids blocks) ->
  findIndex (fun b => id b =? afterId) blocks = (-1)%Z.
Proof.
  intros Hnotin. apply findIndex_none. intros b Hb.
  apply String.eqb_neq. intros Heq. apply Hnotin.
  rewrite <- Heq. now apply in_map.
Qed.

(** ** Read-only mode *)

(** C10. In read-only mode [updateBlock], [addBlock] and [removeBlock] return
    at once: they make no call at all, in particular none to [onChange], so
    whatever the host holds stays as it is. *)
Theorem readOnly_handlers_are_silent blocks blockId afterId t rnd updates :
  updateBlock true blocks blockId updates = [] /\
  addBlock true blocks afterId t rnd = [] /\
  removeBlock true blocks blockId = [] /\
  (forall h : Host,
      performAll h (updateBlock true blocks blockId updates) = h /\
      performAll h (addBlock true blocks afterId t rnd) = h /\
      performAll h (removeBlock true blocks blockId) = h) /\
  (forall ops : list Op, applyOps true ops blocks = blocks).
Proof.
  repeat split.
  induction ops as [|op ops IH]; simpl; [reflexivity|].
  destruct op; exact IH.
Qed.

(** ** Retyping *)

Lemma retype_fields ro blocks blockId t :
  let after := hostBlocks (retype ro blocks blockId t) blocks in
  ids after = ids blocks /\
  map content after = map content blocks /\
  map src after = map src blocks /\
  map width after = map width blocks /\
  map caption after = map caption blocks /\
  map align after = map align blocks /\
  map language after = map language blocks.
Proof.
  destruct ro; simpl.
  - repeat split.
  - unfold hostBlocks, ids; simpl. rewrite !map_map.
    repeat split; apply map_ext; intros b; destruct (id b =? blockId); reflexivity.
Qed.

Lemma retype_sets_type blocks blockId t b :
  In b (hostBlocks (retype false blocks blockId t) blocks) ->
  id b = blockId -> type b = t.
Proof.
  unfold retype. rewrite hostBlocks_updateBlock. intros Hin Hid.
  apply in_map_iff in Hin. destruct Hin as (b0 & Hb & _).
  destruct (id b0 =? blockId) eqn:E.
  - now subst b.
  - subst b. apply String.eqb_neq in E. contradiction.
Qed.

(** C4. Retyping a block never changes an identifier, and after
    [retype(id, A)], [retype(id, B)], [retype(id, A)] every block still has
    the [content], [src] and [width] it started with (so do [caption],
    [align] and [language]): no field is erased because the new type does
    not use it.  When the editor is not read-only the block does carry the
    type asked for last. *)
Theorem retype_round_trip ro blocks blockId (A B : BlockType) :
  let once := hostBlocks (retype ro blocks blockId A) blocks in
  let twice := hostBlocks (retype ro once blockId B) once in
  let thrice := hostBlocks (retype ro twice blockId A) twice in
  ids once = ids blocks /\ ids twice = ids blocks /\ ids thrice = ids blocks /\
  map content thrice = map content blocks /\
  map src thrice = map src blocks /\
  map width thrice = map width blocks /\
  map caption thrice = map caption blocks /\
  map align thrice = map align blocks /\
  map language thrice = map language blocks /\
  (forall b, ro = false -> In b thrice -> id b = blockId -> type b = A).
Proof.
  intros once twice thrice.
  destruct (retype_fields ro blocks blockId A) as (I1 & C1 & S1 & W1 & K1 & A1 & L1).
  destruct (retype_fields ro once blockId B) as (I2 & C2 & S2 & W2 & K2 & A2 & L2).
  destruct (retype_fields ro twice blockId A) as (I3 & C3 & S3 & W3 & K3 & A3 & L3).
  fold once in I1, C1, S1, W1, K1, A1, L1.
  fold twice in I2, C2, S2, W2, K2, A2, L2.
  fold thrice in I3, C3, S3, W3, K3, A3, L3.
  repeat split; try congruence.
  intros b -> Hin Hid. exact (retype_sets_type twice blockId A b Hin Hid).
Qed.

(** ** Inserting *)

(** C2, as amended. In an editor that is not read-only, when [afterId] names
    no block of the sequence, [findIndex] answers [-1] and the new block is
    spliced in at position 0:
    it comes first, and the blocks that were there follow it in their
    order. *)
Theorem addBlock_unknown_afterId_prepends blocks afterId t rnd :
  ~ In afterId (ids blocks) ->
  addBlock false blocks afterId t rnd =
    [OnChange (newBlock rnd t :: blocks);
     SetTimeout [SetActiveBlockId (Some (newId rnd))] 10]
  /\ hostBlocks (addBlock false blocks afterId t rnd) blocks
     = newBlock rnd t :: blocks.
Proof.
  intros Hnotin. unfold hostBlocks, addBlock; simpl.
  rewrite (findIndex_unknown _ _ Hnotin). simpl.
  rewrite splice_insert_front. split; reflexivity.
Qed.

Lemma addBlock_unknown_afterId_prepends_witness :
  ~ In "gone" (ids mockBlocks) /\
  hostBlocks (addBlock false mockBlocks "gone" BlockTypes.Paragraph "0.k2j5x8q1zr7")
             mockBlocks
  = newBlock "0.k2j5x8q1zr7" BlockTypes.Paragraph :: mockBlocks.
Proof.
  assert (H : ~ In "gone" (ids mockBlocks)).
  { simpl. intros [E|[E|[E|[E|[]]]]]; discriminate E. }
  split; [exact H|].
  exact (proj2 (addBlock_unknown_afterId_prepends mockBlocks "gone"
                  BlockTypes.Paragraph "0.k2j5x8q1zr7" H)).
Defined.

(** C2, the claim as written fails: with an [afterId] that names no block the
    new block does not end up last. *)
Lemma addBlock_unknown_afterId_not_last :
  ~ In "gone" (ids mockBlocks) /\
  hostBlocks (addBlock false mockBlocks "gone" BlockTypes.Paragraph "0.k2j5x8q1zr7")
             mockBlocks
  = newBlock "0.k2j5x8q1zr7" BlockTypes.Paragraph :: mockBlocks /\
  hostBlocks (addBlock false mockBlocks "gone" BlockTypes.Paragraph "0.k2j5x8q1zr7")
             mockBlocks
  <> mockBlocks ++ [newBlock "0.k2j5x8q1zr7" BlockTypes.Paragraph].
Proof.
  split; [|split].
  - simpl. intros [E|[E|[E|[E|[]]]]]; discriminate E.
  - reflexivity.
  - intros E. vm_compute in E. discriminate E.
Qed.

(** When [afterId] names a block, the new block comes right after the first
    block that carries that identifier. *)
Lemma addBlock_after_member blocks (k : nat) b t rnd :
  NoDup (ids blocks) -> nth_error blocks k = Some b ->
  hostBlocks (addBlock false blocks (id b) t rnd) blocks
  = firstn (S k) blocks ++ newBlock rnd t :: skipn (S k) blocks.
Proof.
  intros Hnd Hk. rewrite hostBlocks_addBlock.
  rewrite (findIndex_of_member blocks k b Hnd Hk).
  unfold splice_insert.
  assert (Hlt : (k < List.length blocks)%nat) by (apply nth_error_Some; congruence).
  destruct (Z.of_nat k + 1 <? 0)%Z eqn:E; [apply Z.ltb_lt in E; lia|].
  replace (Z.to_nat (Z.min (Z.of_nat k + 1) (Z.of_nat (List.length blocks))))
    with (S k) by lia.
  reflexivity.
Qed.

(** ** Distinct identifiers *)

Lemma NoDup_ids_addBlock ro blocks afterId t rnd :
  NoDup (ids blocks) -> ~ In (newId rnd) (ids blocks) ->
  NoDup (ids (hostBlocks (addBlock ro blocks afterId t rnd) blocks)).
Proof.
  intros Hnd Hfresh. destruct ro; [exact Hnd|].
  rewrite hostBlocks_addBlock.
  eapply Permutation_NoDup.
  - unfold ids. apply Permutation_map. apply splice_insert_permutation.
  - simpl. constructor; assumption.
Qed.

Lemma NoDup_ids_removeBlock ro blocks blockId :
  NoDup (ids blocks) ->
  NoDup (ids (hostBlocks (removeBlock ro blocks blockId) blocks)).
Proof.
  intros Hnd. destruct ro; [exact Hnd|].
  rewrite hostBlocks_removeBlock.
  destruct (List.length blocks <=? 1)%nat; [exact Hnd|].
  now apply NoDup_ids_filter.
Qed.

Lemma NoDup_ids_updateBlock ro blocks blockId updates :
  p_id updates = None -> NoDup (ids blocks) ->
  NoDup (ids (hostBlocks (updateBlock ro blocks blockId updates) blocks)).
Proof.
  intros Hid Hnd. destruct ro; [exact Hnd|].
  rewrite hostBlocks_updateBlock, ids_spread_map; assumption.
Qed.

(** C9, as amended. Starting from pairwise distinct identifiers: an update
    whose fields do not include [id], a removal and a retype keep them
    distinct; an insertion keeps them distinct when the identifier drawn for
    the new block does not occur in the sequence yet (the editor draws it at
    random and does not look). *)
Theorem operations_keep_ids_distinct ro blocks :
  NoDup (ids blocks) ->
  (forall blockId updates,
      p_id updates = None ->
      NoDup (ids (hostBlocks (updateBlock ro blocks blockId updates) blocks))) /\
  (forall afterId t rnd,
      ~ In (newId rnd) (ids blocks) ->
      NoDup (ids (hostBlocks (addBlock ro blocks afterId t rnd) blocks))) /\
  (forall blockId,
      NoDup (ids (hostBlocks (removeBlock ro blocks blockId) blocks))) /\
  (forall blockId t,
      NoDup (ids (hostBlocks (retype ro blocks blockId t) blocks))).
Proof.
  intros Hnd. repeat split; intros.
  - now apply NoDup_ids_updateBlock.
  - now apply NoDup_ids_addBlock.
  - now apply NoDup_ids_removeBlock.
  - unfold retype. now apply NoDup_ids_updateBlock.
Qed.

Lemma NoDup_ids_mockBlocks : NoDup (ids mockBlocks).
Proof.
  simpl. repeat constructor; simpl; intuition discriminate.
Defined.

Lemma operations_keep_ids_distinct_witness :
  NoDup (ids mockBlocks) /\
  NoDup (ids (hostBlocks (removeBlock false mockBlocks "b2") mockBlocks)) /\
  NoDup (ids (hostBlocks (retype false mockBlocks "b2" BlockTypes.Quote) mockBlocks)).
Proof.
  pose proof (operations_keep_ids_distinct false mockBlocks NoDup_ids_mockBlocks)
    as (_ & _ & Hremove & Hretype).
  split; [exact NoDup_ids_mockBlocks|].
  split; [apply Hremove | apply Hretype].
Defined.

(** C9, the claim as written fails. The identifier of a new block is a
    prefix of what [Math.random] printed, and nothing compares it with the
    identifiers in use: two draws of 0.5 (printed "0.i" in base 36) give two
    blocks the identifier "i".  An update that carries an [id] field can
    repeat an identifier as well. *)
Lemma addBlock_can_repeat_an_identifier :
  NoDup (ids initialBlocks) /\
  ids (applyOps false
         [AddBlock "1" BlockTypes.Paragraph "0.i";
          AddBlock "i" BlockTypes.Paragraph "0.i"] initialBlocks)
  = ["1"; "i"; "i"] /\
  ~ NoDup (ids (applyOps false
                  [AddBlock "1" BlockTypes.Paragraph "0.i";
                   AddBlock "i" BlockTypes.Paragraph "0.i"] initialBlocks)) /\
  ids (hostBlocks
         (updateBlock false mockBlocks "b1"
            (mkPartial (Some "b2") None None None None None None None))
         mockBlocks)
  = ["b2"; "b2"; "b3"; "b4"].
Proof.
  split; [|split; [|split]].
  - simpl. repeat constructor. simpl. tauto.
  - reflexivity.
  - intros H. vm_compute in H.
    inversion H as [|? ? _ H']; subst.
    inversion H' as [|? ? Hnotin _]; subst.
    apply Hnotin. now left.
  - reflexivity.
Qed.

(** ** The sequence never runs empty *)

Lemma applyOp_invariant ro blocks op :
  NoDup (ids blocks) -> (1 <= List.length blocks)%nat ->
  match op with
  | AddBlock _ _ rnd => ~ In (newId rnd) (ids blocks)
  | RemoveBlock _ => True
  end ->
  NoDup (ids (applyOp ro blocks op)) /\
  (1 <= List.length (applyOp ro blocks op))%nat.
Proof.
  intros Hnd Hlen Hfresh. unfold applyOp.
  destruct op as [afterId t rnd | blockId]; simpl.
  - split; [now apply NoDup_ids_addBlock|].
    destruct ro; [exact Hlen|].
    rewrite hostBlocks_addBlock, splice_insert_length. lia.
  - split; [now apply NoDup_ids_removeBlock|].
    destruct ro; [exact Hlen|].
    rewrite hostBlocks_removeBlock.
    destruct (List.length blocks <=? 1)%nat eqn:E; [exact Hlen|].
    apply Nat.leb_gt in E.
    pose proof (filter_id_length blocks blockId Hnd). lia.
Qed.

(** C1, as amended. From a non-empty sequence with pairwise distinct
    identifiers, any run of insertions and removals in which every drawn
    identifier is new leaves at least one block (and distinct identifiers).
    Whatever the identifiers, removing from a sequence of one block does
    nothing: no call is made and the host keeps that block. *)
Theorem session_keeps_a_block ro (ops : list Op) blocks :
  blocks <> [] -> NoDup (ids blocks) -> freshDraws ro ops blocks ->
  (1 <= List.length (applyOps ro ops blocks))%nat /\
  NoDup (ids (applyOps ro ops blocks)) /\
  (forall only blockId,
      removeBlock ro [only] blockId = [] /\
      applyOp ro [only] (RemoveBlock blockId) = [only]).
Proof.
  intros Hne Hnd Hfresh.
  assert (Hlen : (1 <= List.length blocks)%nat)
    by (destruct blocks; [contradiction|simpl; lia]).
  clear Hne.
  split; [|split].
  - revert blocks Hnd Hlen Hfresh.
    induction ops as [|op ops IH]; intros blocks Hnd Hlen Hfresh; simpl; [exact Hlen|].
    destruct Hfresh as [Hop Hrest].
    destruct (applyOp_invariant ro blocks op Hnd Hlen Hop) as [Hnd' Hlen'].
    now apply IH.
  - revert blocks Hnd Hlen Hfresh.
    induction ops as [|op ops IH]; intros blocks Hnd Hlen Hfresh; simpl; [exact Hnd|].
    destruct Hfresh as [Hop Hrest].
    destruct (applyOp_invariant ro blocks op Hnd Hlen Hop) as [Hnd' Hlen'].
    now apply IH.
  - intros only blockId. unfold applyOp; simpl.
    unfold removeBlock; simpl. rewrite orb_true_r. split; reflexivity.
Qed.

Lemma session_keeps_a_block_witness :
  initialBlocks <> [] /\
  freshDraws false
    [AddBlock "1" BlockTypes.Heading1 "0.4fzyo82mvyr";
     RemoveBlock "1";
     RemoveBlock "4fzyo82mv"] initialBlocks /\
  (1 <= List.length
          (applyOps false
             [AddBlock "1" BlockTypes.Heading1 "0.4fzyo82mvyr";
              RemoveBlock "1";
              RemoveBlock "4fzyo82mv"] initialBlocks))%nat.
Proof.
  assert (Hne : initialBlocks <> []) by discriminate.
  assert (Hnd : NoDup (ids initialBlocks)).
  { simpl. repeat constructor. simpl. tauto. }
  assert (Hfresh : freshDraws false
    [AddBlock "1" BlockTypes.Heading1 "0.4fzyo82mvyr";
     RemoveBlock "1";
     RemoveBlock "4fzyo82mv"] initialBlocks).
  { simpl. repeat split. intros [E|[]]. discriminate E. }
  split; [exact Hne|]. split; [exact Hfresh|].
  exact (proj1 (session_keeps_a_block false _ initialBlocks Hne Hnd Hfresh)).
Defined.

(** C1, the claim as written fails. A new post starts with the block "1".
    Two insertions for which [Math.random] printed "0.i" both create a block
    "i"; after block "1" is removed the two blocks left share their
    identifier, and one more [removeBlock] filters both out: the host is
    handed the empty sequence. *)
Lemma session_can_run_empty :
  initialBlocks <> [] /\
  NoDup (ids initialBlocks) /\
  ids (applyOps false
         [AddBlock "1" BlockTypes.Paragraph "0.i";
          AddBlock "i" BlockTypes.Paragraph "0.i";
          RemoveBlock "1"] initialBlocks) = ["i"; "i"] /\
  applyOps false
    [AddBlock "1" BlockTypes.Paragraph "0.i";
     AddBlock "i" BlockTypes.Paragraph "0.i";
     RemoveBlock "1";
     RemoveBlock "i"] initialBlocks = [] /\
  List.length
    (applyOps false
       [AddBlock "1" BlockTypes.Paragraph "0.i";
        AddBlock "i" BlockTypes.Paragraph "0.i";
        RemoveBlock "1";
        RemoveBlock "i"] initialBlocks) = 0%nat.
Proof.
  split; [discriminate|].
  split; [simpl; repeat constructor; simpl; tauto|].
  repeat split.
Qed.

(** ** Focus after a removal *)

(** With distinct identifiers [removeBlock] takes out exactly the block it
    was called for. *)
Lemma filter_id_of_member blocks (i : nat) b :
  NoDup (ids blocks) -> nth_error blocks i = Some b ->
  filter (fun x => negb (id x =? id b)) blocks
  = firstn i blocks ++ skipn (S i) blocks.
Proof.
  revert i. induction blocks as [|a bs IH]; intros [|i] Hnd Hi; simpl in *;
    try discriminate;
    inversion Hnd as [|? ? Hnotin Hrest]; subst.
  - injection Hi as ->. rewrite String.eqb_refl. simpl.
    apply forallb_filter_id. apply forallb_forall. intros x Hx.
    apply negb_true_iff, String.eqb_neq. intros Heq.
    apply Hnotin. rewrite <- Heq. now apply in_map.
  - destruct (id a =? id b) eqn:E; simpl.
    + apply String.eqb_eq in E. exfalso. apply Hnotin. rewrite E.
      apply in_map. eapply nth_error_In, Hi.
    + f_equal. now apply IH.
Qed.

(** C6, as amended. In a sequence of more than one block with pairwise
    distinct identifiers (and an editor that is not read-only), removing the
    block at
    position [i > 0] hands the host the
    sequence without it and then focuses the block that was at position
    [i - 1]; removing the block at position 0 hands the host the sequence
    without it and asks for no focus at all. *)
Theorem removeBlock_focus_transfer blocks (i : nat) b :
  (1 < List.length blocks)%nat -> NoDup (ids blocks) ->
  nth_error blocks i = Some b ->
  match i with
  | O =>
      removeBlock false blocks (id b) = [OnChange (skipn 1 blocks)] /\
      focusRequest (removeBlock false blocks (id b)) = None
  | S j =>
      exists prev,
        nth_error blocks j = Some prev /\
        removeBlock false blocks (id b) =
          [OnChange (firstn i blocks ++ skipn (S i) blocks);
           SetActiveBlockId (Some (id prev))] /\
        focusRequest (removeBlock false blocks (id b)) = Some (id prev)
  end.
Proof.
  intros Hlen Hnd Hi.
  pose proof (findIndex_of_member blocks i b Hnd Hi) as Hidx.
  pose proof (filter_id_of_member blocks i b Hnd Hi) as Hfilter.
  unfold removeBlock. simpl.
  destruct (List.length blocks <=? 1)%nat eqn:E; [apply Nat.leb_le in E; lia|].
  rewrite Hidx.
  destruct i as [|j].
  - simpl. rewrite Hfilter. split; reflexivity.
  - assert (Hj : (j < List.length blocks)%nat).
    { assert (S j < List.length blocks)%nat by (apply nth_error_Some; congruence). lia. }
    destruct (nth_error blocks j) as [prev|] eqn:Hprev;
      [|apply nth_error_None in Hprev; lia].
    exists prev. split; [reflexivity|].
    destruct (Z.of_nat (S j) >? 0)%Z eqn:Hpos; [|rewrite Z.gtb_ltb in Hpos; apply Z.ltb_ge in Hpos; lia].
    assert (Hat : at_index (filter (fun x => negb (id x =? id b)) blocks)
                           (Z.of_nat (S j) - 1) = Some prev).
    { unfold at_index.
      destruct (Z.of_nat (S j) - 1 <? 0)%Z eqn:Hneg; [apply Z.ltb_lt in Hneg; lia|].
      replace (Z.to_nat (Z.of_nat (S j) - 1)) with j by lia.
      rewrite (filter_before_first (fun x => id x =? id b) blocks (S j) j Hidx) by lia.
      exact Hprev. }
    rewrite Hat, Hfilter. split; reflexivity.
Qed.

Lemma removeBlock_focus_transfer_witness :
  (1 < List.length mockBlocks)%nat /\
  (exists prev,
      nth_error mockBlocks 1 = Some prev /\
      removeBlock false mockBlocks "b3" =
        [OnChange (firstn 2 mockBlocks ++ skipn 3 mockBlocks);
         SetActiveBlockId (Some (id prev))] /\
      focusRequest (removeBlock false mockBlocks "b3") = Some (id prev)).
Proof.
  assert (Hlen : (1 < List.length mockBlocks)%nat) by (simpl; lia).
  split; [exact Hlen|].
  exact (removeBlock_focus_transfer mockBlocks 2
           (mkBlock "b3" BlockTypes.Image EmptyString
                    (Some "https://images.unsplash.com/photo-1624253321171")
                    (Some 100%Q) None None None)
           Hlen NoDup_ids_mockBlocks eq_refl).
Defined.

(** C6, the claim as written fails. After two insertions for which
    [Math.random] printed "0.i" the sequence has the identifiers "1", "i",
    "i".  Removing the block at position 2 is [removeBlock("i")]:
    [findIndex] answers 1, the filter drops both blocks "i", and the block
    focused is the one that was at position 0, "1", not the one that was at
    position 1, "i". *)
Lemma removeBlock_focus_with_repeated_identifier :
  ids (applyOps false
         [AddBlock "1" BlockTypes.Paragraph "0.i";
          AddBlock "i" BlockTypes.Paragraph "0.i"] initialBlocks)
  = ["1"; "i"; "i"] /\
  (1 < List.length
         (applyOps false
            [AddBlock "1" BlockTypes.Paragraph "0.i";
             AddBlock "i" BlockTypes.Paragraph "0.i"] initialBlocks))%nat /\
  option_map id
    (nth_error (applyOps false
                  [AddBlock "1" BlockTypes.Paragraph "0.i";
                   AddBlock "i" BlockTypes.Paragraph "0.i"] initialBlocks) 2)
  = Some "i" /\
  option_map id
    (nth_error (applyOps false
                  [AddBlock "1" BlockTypes.Paragraph "0.i";
                   AddBlock "i" BlockTypes.Paragraph "0.i"] initialBlocks) 1)
  = Some "i" /\
  removeBlock false
    (applyOps false
       [AddBlock "1" BlockTypes.Paragraph "0.i";
        AddBlock "i" BlockTypes.Paragraph "0.i"] initialBlocks) "i"
  = [OnChange initialBlocks; SetActiveBlockId (Some "1")] /\
  focusRequest
    (removeBlock false
       (applyOps false
          [AddBlock "1" BlockTypes.Paragraph "0.i";
           AddBlock "i" BlockTypes.Paragraph "0.i"] initialBlocks) "i")
  <> Some "i".
Proof.
  repeat split; try (simpl; lia). discriminate.
Qed.

(** ** Resizing media *)

Lemma newWidthPercent_bounds (w : Q) :
  20 <= newWidthPercent w /\ newWidthPercent w <= 100.
Proof.
  unfold newWidthPercent.
  destruct (Q.max_spec 20 w) as [[H1 H2]|[H1 H2]];
    destruct (Q.min_spec 100 (Qmax 20 w)) as [[H3 H4]|[H3 H4]];
    rewrite ?H4, ?H2 in *; split; lra.
Qed.

(** [Math.min(100, Math.max(20, w))] is the same number as
    [max(20, min(100, w))]. *)
Lemma newWidthPercent_clamp (w : Q) :
  newWidthPercent w = Qmax 20 (Qmin 100 w).
Proof.
  unfold newWidthPercent, Qmin, Qmax, GenericMinMax.gmin, GenericMinMax.gmax.
  destruct (20 ?= w)%Q eqn:E1; destruct (100 ?= w)%Q eqn:E2;
    try reflexivity;
    rewrite ?E1; try reflexivity; exfalso;
    rewrite <- ?Qeq_alt, <- ?Qlt_alt, <- ?Qgt_alt in *; lra.
Qed.

(** C5. In an editor that is not read-only a drag starts at every mouse
    down on the handle, and however far the mouse moved, the width
    [onMouseMove] passes to [updateBlock] for the percentage [w] it computed
    from the displacement
    is [max(20, min(100, w))]; that is the width every block with the
    dragged block's identifier has afterwards, and it lies between 20 and
    100. *)
Theorem resize_stores_clamped_width blocks block
    (containerRef : option Container) (downX moveX : Q) :
  exists d : Drag,
    handleResize false containerRef downX = Some d /\
    let w := requestedPercent d moveX in
    let stored := Qmax 20 (Qmin 100 w) in
    let after := hostBlocks (onMouseMove (updateBlock false blocks) block d moveX)
                            blocks in
    onMouseMove (updateBlock false blocks) block d moveX =
      [OnChange
         (map (fun b => if id b =? id block
                        then spread b (widthOnly stored) else b) blocks);
       SetMenuOpenBlockId None] /\
    (forall b', In b' after -> id b' = id block -> width b' = Some stored) /\
    (In block blocks ->
     exists b', In b' after /\ id b' = id block /\ width b' = Some stored) /\
    20 <= stored /\ stored <= 100.
Proof.
  eexists. split; [reflexivity|].
  cbv zeta. unfold onMouseMove.
  rewrite hostBlocks_updateBlock, newWidthPercent_clamp.
  set (d := mkDrag _ _ _).
  set (stored := Qmax 20 (Qmin 100 (requestedPercent d moveX))).
  split; [reflexivity|]. split; [|split].
  - intros b' Hin Hid. apply in_map_iff in Hin. destruct Hin as (b0 & Hb & _).
    destruct (id b0 =? id block) eqn:E.
    + now subst b'.
    + subst b'. apply String.eqb_neq in E. contradiction.
  - intros Hin. exists (spread block (widthOnly stored)).
    split; [|split; reflexivity].
    apply in_map_iff. exists block. now rewrite String.eqb_refl.
  - unfold stored. rewrite <- newWidthPercent_clamp.
    apply newWidthPercent_bounds.
Qed.

(** In read-only mode the handle starts no drag. *)
Lemma handleResize_readOnly containerRef (downX : Q) :
  handleResize true containerRef downX = None.
Proof. reflexivity. Qed.

(** A drag of 500 pixels to the right on a block that fills its parent of
    1000 pixels asks for 150 percent and stores 100. *)
Example resize_beyond_parent :
  exists d : Drag,
    handleResize false fullWidthContainer 300 = Some d /\
    requestedPercent d 800 == 150 /\
    onMouseMove (updateBlock false mockBlocks)
                (mkBlock "b3" BlockTypes.Image EmptyString None None None None None)
                d 800
    = updateBlock false mockBlocks "b3" (widthOnly 100).
Proof.
  eexists. split; [reflexivity|]. split; reflexivity.
Qed.

(** ** Pasting an image *)

(** The loop of [handlePaste] acts on the first item whose type contains
    "image" and on no other. *)
Lemma handlePaste_first_image ro blocks (items : list DataTransferItem) blockId :
  handlePaste ro blocks items blockId =
  match find (fun it => includes (item_type it) "image") items with
  | Some it =>
      PreventDefault ::
      match getAsFile it with
      | Some blob =>
          [ReadFile blob (fun result =>
             updateBlock ro blocks blockId
               (mkPartial None (Some BlockTypes.Image) (Some EmptyString)
                          (Some result) None None None None))]
      | None => []
      end
  | None => []
  end.
Proof.
  induction items as [|it rest IH]; simpl; [reflexivity|].
  destruct (includes (item_type it) "image"); [reflexivity|exact IH].
Qed.

(** C7. In an editor that is not read-only, when the clipboard of a paste
    holds an image (the first item whose type contains "image" yields a
    file), [handlePaste] suppresses the
    default paste at once, and when the file has been read every block with
    the target identifier has type [Image], the data URI of the file as
    [src], the empty string as [content], and the identifier, width,
    caption, alignment and language it had; the other blocks are the same
    as before. *)
Theorem paste_image_converts_block (seq : list ContentBlock)
    (items : list DataTransferItem) blockId (it : DataTransferItem)
    (blob : File) :
  find (fun x => includes (item_type x) "image") items = Some it ->
  getAsFile it = Some blob ->
  let start := mkHost seq None None false [] false in
  let pasted := performAll start (handlePaste false seq items blockId) in
  let loaded := flush pasted in
  defaultPrevented pasted = true /\
  blocks pasted = seq /\
  blocks loaded =
    map (fun b =>
           if id b =? blockId
           then mkBlock (id b) BlockTypes.Image EmptyString
                        (Some (readAsDataURL blob)) (width b) (caption b)
                        (align b) (language b)
           else b) seq /\
  String.prefix "data:" (readAsDataURL blob) = true /\
  crashed loaded = false.
Proof.
  intros Hfind Hfile. cbv zeta.
  rewrite handlePaste_first_image, Hfind, Hfile.
  split; [reflexivity|]. split; [reflexivity|].
  split; [|split; [|reflexivity]].
  - unfold flush; simpl. apply map_ext. intros b.
    destruct (id b =? blockId); reflexivity.
  - unfold readAsDataURL. simpl.
    now destruct (file_type blob ++ _)%string.
Qed.

Lemma paste_image_converts_block_witness :
  find (fun x => includes (item_type x) "image") clipboardWithImage
    = Some (mkItem "image/png" (Some screenshot)) /\
  blocks
    (flush (performAll (mkHost draftBlocks None None false [] false)
                       (handlePaste false draftBlocks clipboardWithImage "p1")))
  = [mkBlock "p1" BlockTypes.Image EmptyString (Some (readAsDataURL screenshot))
             (Some 100%Q) None (Some Left) None;
     mkBlock "p2" BlockTypes.Paragraph "next" None (Some 100%Q) None (Some Left) None].
Proof.
  split; [reflexivity|].
  exact (proj1 (proj2 (proj2
           (paste_image_converts_block draftBlocks clipboardWithImage "p1"
              (mkItem "image/png" (Some screenshot)) screenshot
              eq_refl eq_refl)))).
Defined.

(** ** The editable surface and external changes *)

Lemma rerender_focused (m : Mounted) (el : Surface) (newBlocks : list ContentBlock) :
  ref m = Some el -> isActiveElement el = true ->
  rerender m newBlocks = mkMounted (m_readOnly m) newBlocks (slot m) (Some el).
Proof.
  intros Href Hfocus. unfold rerender. rewrite Href.
  destruct (htmlProp newBlocks (slot m)) as [html|]; [|reflexivity].
  destruct (match htmlProp (m_blocks m) (slot m) with
            | Some old => old =? html
            | None => false
            end); [reflexivity|].
  unfold syncProp. rewrite Hfocus. simpl.
  destruct (negb (html =? innerHTML el)); reflexivity.
Qed.

(** A re-render whose [html] prop is what the surface shows leaves the
    surface alone. *)
Lemma rerender_same_markup (m : Mounted) (el : Surface) (newBlocks : list ContentBlock) :
  ref m = Some el -> htmlProp newBlocks (slot m) = Some (innerHTML el) ->
  rerender m newBlocks = mkMounted (m_readOnly m) newBlocks (slot m) (Some el).
Proof.
  intros Href Hhtml. unfold rerender. rewrite Href, Hhtml.
  destruct (match htmlProp (m_blocks m) (slot m) with
            | Some old => old =? innerHTML el
            | None => false
            end); [reflexivity|].
  unfold syncProp. rewrite String.eqb_refl. reflexivity.
Qed.

(** C3, as amended. While the surface has the focus, a change of the block's
    [content] from outside does not touch what the surface shows.  When the
    surface then loses the focus, [onBlur] writes the markup of the surface
    back into the block: the surface still shows its own markup, and unless
    the editor is read-only the block's [content] is that markup again, the
    outside value being overwritten. *)
Theorem focused_surface_keeps_its_markup (m : Mounted) (el : Surface)
    (newBlocks : list ContentBlock) (changed : ContentBlock) :
  ref m = Some el -> isActiveElement el = true ->
  nth_error newBlocks (slot m) = Some changed ->
  let m1 := surfaceStep m (ExternalChange newBlocks) in
  let m2 := surfaceStep m1 Blur in
  displayed m1 = Some (innerHTML el) /\
  focused m1 = true /\
  htmlProp (m_blocks m1) (slot m) = Some (content changed) /\
  displayed m2 = Some (innerHTML el) /\
  focused m2 = false /\
  (m_readOnly m = false ->
   htmlProp (m_blocks m2) (slot m) = Some (innerHTML el)).
Proof.
  intros Href Hfocus Hchanged. cbv zeta.
  assert (H1 : surfaceStep m (ExternalChange newBlocks)
               = mkMounted (m_readOnly m) newBlocks (slot m) (Some el))
    by (simpl; now apply rerender_focused).
  rewrite H1. clear H1.
  split; [reflexivity|]. split; [exact Hfocus|].
  split; [unfold htmlProp; simpl; now rewrite Hchanged|].
  unfold surfaceStep, withRef, commonOnChange, handleInput. simpl.
  rewrite Hchanged.
  destruct (m_readOnly m) eqn:Hro.
  - (* read-only: [updateBlock] makes no call, the host re-renders nothing new *)
    rewrite hostBlocks_nil.
    set (m' := mkMounted true newBlocks (slot m)
                         (Some (mkSurface (innerHTML el) false))).
    assert (Hsame : rerender m' newBlocks = m').
    { unfold rerender, m'. simpl. unfold htmlProp. rewrite Hchanged. simpl.
      now rewrite String.eqb_refl. }
    rewrite Hsame. repeat split. discriminate.
  - rewrite hostBlocks_updateBlock.
    set (m' := mkMounted false newBlocks (slot m)
                         (Some (mkSurface (innerHTML el) false))).
    set (written := map _ newBlocks).
    assert (Hwritten : htmlProp written (slot m') = Some (innerHTML el)).
    { unfold htmlProp, written, m'. simpl.
      rewrite nth_error_map, Hchanged. simpl.
      now rewrite String.eqb_refl. }
    rewrite (rerender_same_markup m' (mkSurface (innerHTML el) false) written
               eq_refl Hwritten).
    repeat split. intros _. exact Hwritten.
Qed.

Lemma focused_surface_keeps_its_markup_witness :
  ref typingInDraft = Some (mkSurface "draft" true) /\
  nth_error generatedBlocks (slot typingInDraft)
    = Some (mkBlock "p1" BlockTypes.Paragraph "generated" None (Some 100%Q)
                    None (Some Left) None) /\
  displayed (surfaceStep (surfaceStep typingInDraft (ExternalChange generatedBlocks))
                         Blur)
  = Some "draft".
Proof.
  split; [reflexivity|]. split; [reflexivity|].
  exact (proj1 (proj2 (proj2 (proj2
           (focused_surface_keeps_its_markup typingInDraft
              (mkSurface "draft" true) generatedBlocks
              (mkBlock "p1" BlockTypes.Paragraph "generated" None (Some 100%Q)
                       None (Some Left) None)
              eq_refl eq_refl eq_refl))))).
Defined.

(** C3, the claim as written fails in its second half. The surface of block
    "p1" shows "draft" and has the focus when the block's content is set to
    "generated" from outside.  The surface keeps showing "draft"; after the
    blur, with no edit in between, it still shows "draft" and not
    "generated", and the block's content is "draft" again. *)
Lemma blur_does_not_show_external_value :
  focused typingInDraft = true /\
  htmlProp generatedBlocks (slot typingInDraft) = Some "generated" /\
  displayed (surfaceStep typingInDraft (ExternalChange generatedBlocks))
    = Some "draft" /\
  displayed (surfaceStep (surfaceStep typingInDraft (ExternalChange generatedBlocks))
                         Blur)
    = Some "draft" /\
  displayed (surfaceStep (surfaceStep typingInDraft (ExternalChange generatedBlocks))
                         Blur)
    <> Some "generated" /\
  htmlProp (m_blocks (surfaceStep
                        (surfaceStep typingInDraft (ExternalChange generatedBlocks))
                        Blur))
           (slot typingInDraft)
    = Some "draft".
Proof.
  repeat split. discriminate.
Qed.

(** ** Rendering a block of a type without a case *)

Lemma eqb_not_in (s a : string) (l : list string) :
  ~ In s (a :: l) -> (s =? a) = false /\ ~ In s l.
Proof.
  intros H. split.
  - apply String.eqb_neq. intros ->. apply H. now left.
  - intros Hin. apply H. now right.
Qed.

(** C8, as amended. [PostDetailView] renders nothing for a block whose type
    is none of its five cases (its [switch] returns [null] for it), and
    every other block of the post is rendered as it is on its own.  The
    editor, also in read-only mode, has no empty rendering: a type that is
    none of the cases of [renderBlockContent] reaches its [default] and is
    shown as a plain text surface with the block's content. *)
Theorem rendering_of_uncased_types (block : ContentBlock) :
  (~ In (type block) postViewCases ->
   renderPostBlock block = None /\
   forall before after : list ContentBlock,
     renderPostBody (before ++ block :: after)
     = renderPostBody before ++ None :: renderPostBody after) /\
  (~ In (type block) editorCases ->
   forall (ro : bool) (active : option string),
     renderBlockContent ro active block =
       RichText (mkRichText "div" "Type '/' for commands..." (content block) ro
                   match active with
                   | Some a => a =? id block
                   | None => false
                   end
                   (id block))).
Proof.
  split.
  - intros H. unfold postViewCases in H.
    assert (Hnull : renderPostBlock block = None).
    { unfold renderPostBlock.
      repeat (apply eqb_not_in in H; destruct H as [-> H]). reflexivity. }
    split; [exact Hnull|].
    intros before after. unfold renderPostBody.
    rewrite map_app. simpl. now rewrite Hnull.
  - intros H ro active. unfold editorCases in H. unfold renderBlockContent.
    repeat (apply eqb_not_in in H; destruct H as [-> H]). reflexivity.
Qed.

Lemma rendering_of_uncased_types_witness :
  ~ In (type calloutBlock) postViewCases /\
  renderPostBody (firstn 2 mockBlocks ++ calloutBlock :: skipn 2 mockBlocks)
  = renderPostBody (firstn 2 mockBlocks) ++ None :: renderPostBody (skipn 2 mockBlocks).
Proof.
  assert (H : ~ In (type calloutBlock) postViewCases).
  { simpl. intros [E|[E|[E|[E|[E|[]]]]]]; discriminate E. }
  split; [exact H|].
  exact (proj2 (proj1 (rendering_of_uncased_types calloutBlock) H)
               (firstn 2 mockBlocks) (skipn 2 mockBlocks)).
Defined.

(** C8, the claim as written fails for the editor. A block of the type
    "callout", which is no member of [BlockType] and none of the cases of
    [renderBlockContent], is rendered by the read-only editor as a text
    surface that shows its content; only [PostDetailView] renders nothing
    for it. *)
Lemma readOnly_editor_renders_unknown_type :
  ~ In (type calloutBlock) BlockTypes.members /\
  ~ In (type calloutBlock) editorCases /\
  renderBlockContent true None calloutBlock =
    RichText (mkRichText "div" "Type '/' for commands..." "Bring an umbrella."
                         true false "c1") /\
  renderEditorBody true None [calloutBlock] <> [] /\
  renderPostBlock calloutBlock = None.
Proof.
  split; [|split; [|split; [|split]]].
  - simpl. intuition discriminate.
  - simpl. intuition discriminate.
  - reflexivity.
  - discriminate.
  - reflexivity.
Qed.

(** ** [removeBlock] does not fail *)

(** The block [removeBlock] focuses is always there: the filter keeps what
    precedes the first match. *)
Lemma removeBlock_never_throws ro blocks blockId :
  ~ In ThrowTypeError (removeBlock ro blocks blockId).
Proof.
  unfold removeBlock.
  destruct (ro || (List.length blocks <=? 1)%nat); [intros []|].
  pose proof (findIndex_range (fun x => id x =? blockId) blocks) as Hrange.
  pose proof (filter_before_first (fun x => id x =? blockId) blocks) as Hkept.
  cbv beta in Hkept.
  destruct (findIndex (fun x => id x =? blockId) blocks) as [|k|k] eqn:Hidx;
    try (simpl; intros [E|[]]; discriminate E).
  simpl (Z.pos k >? 0)%Z. cbv iota.
  unfold at_index.
  destruct (Z.pos k - 1 <? 0)%Z eqn:Hneg; [apply Z.ltb_lt in Hneg; lia|].
  rewrite (Hkept (Pos.to_nat k) (Z.to_nat (Z.pos k - 1))) by lia.
  destruct (nth_error blocks (Z.to_nat (Z.pos k - 1))) eqn:Hnth.
  - simpl. intros [E|[E|[]]]; discriminate E.
  - apply nth_error_None in Hnth. lia.
Qed.

(** ** Scenarios *)

(** A heading inserted after the only block of a new post: two blocks, the
    second a heading, the first as it was. *)
Example insert_heading_after_first :
  hostBlocks (addBlock false initialBlocks "1" BlockTypes.Heading1 "0.8c1q0zk3m5d")
             initialBlocks
  = initialBlocks ++ [newBlock "0.8c1q0zk3m5d" BlockTypes.Heading1]
  /\ id (newBlock "0.8c1q0zk3m5d" BlockTypes.Heading1) = "8c1q0zk3m".
Proof. split; reflexivity. Qed.

(** The second of three blocks removed: the first and the third remain, and
    the first is focused. *)
Example remove_middle_block :
  removeBlock false (firstn 3 mockBlocks) "b2" =
    [OnChange [nth 0 mockBlocks calloutBlock; nth 2 mockBlocks calloutBlock];
     SetActiveBlockId (Some "b1")].
Proof. reflexivity. Qed.

(** A removal for an identifier that names no block hands the host the same
    blocks and focuses nothing. *)
Example remove_unknown_block :
  removeBlock false mockBlocks "gone" = [OnChange mockBlocks].
Proof. reflexivity. Qed.

(** The clipboard with a screenshot: the default paste is suppressed before
    anything is read. *)
Example paste_prevents_default :
  defaultPrevented
    (performAll (mkHost draftBlocks None None false [] false)
                (handlePaste false draftBlocks clipboardWithImage "p1")) = true
  /\ handlePaste false draftBlocks [mkItem "text/plain" None] "p1" = [].
Proof. split; reflexivity. Qed.

(** ** Strings *)

Lemma prefix_empty (s : string) : String.prefix EmptyString s = true.
Proof. destruct s; reflexivity. Qed.

Lemma prefix_cons (a b : ascii) (p s : string) :
  String.prefix (String a p) (String b s)
  = if ascii_dec a b then String.prefix p s else false.
Proof. reflexivity. Qed.

Lemma prefix_cons_same (a : ascii) (p s : string) :
  String.prefix (String a p) (String a s) = String.prefix p s.
Proof. rewrite prefix_cons. destruct (ascii_dec a a); [reflexivity|contradiction]. Qed.

Lemma prefix_cons_other (a b : ascii) (p s : string) :
  a <> b -> String.prefix (String a p) (String b s) = false.
Proof. intros H. rewrite prefix_cons. destruct (ascii_dec a b); [contradiction|reflexivity]. Qed.

Lemma includes_cons (c : ascii) (s p : string) :
  includes (String c s) p = String.prefix p (String c s) || includes s p.
Proof.
  unfold includes.
  change (String.index 0 p (String c s))
    with (if String.prefix p (String c s) then Some 0%nat
          else match String.index 0 p s with
               | Some n => Some (S n)
               | None => None
               end).
  destruct (String.prefix p (String c s)); [reflexivity|].
  destruct (String.index 0 p s); reflexivity.
Qed.

Lemma includes_empty_text (a : ascii) (p : string) :
  includes EmptyString (String a p) = false.
Proof. reflexivity. Qed.

Lemma substring_whole (s : string) : substring 0 (String.length s) s = s.
Proof. induction s as [|c s IH]; simpl; [reflexivity|now rewrite IH]. Qed.

(** A longer pattern occurs only where its prefix occurs. *)
Lemma prefix_weaken (p q s : string) :
  String.prefix (p ++ q) s = true -> String.prefix p s = true.
Proof.
  revert s. induction p as [|a p IH]; intros s H; [apply prefix_empty|].
  destruct s as [|b s]; [discriminate H|].
  simpl append in H. rewrite prefix_cons in *.
  destruct (ascii_dec a b); [now apply IH|discriminate H].
Qed.

Lemma includes_weaken (p q s : string) :
  includes s p = false -> includes s (p ++ q) = false.
Proof.
  induction s as [|c s IH]; intros H.
  - destruct p as [|a p]; [discriminate H|reflexivity].
  - rewrite includes_cons in *. apply orb_false_iff in H. destruct H as [Hp Hs].
    apply orb_false_iff. split; [|now apply IH].
    destruct (String.prefix (p ++ q) (String c s)) eqn:E; [|reflexivity].
    apply prefix_weaken in E. congruence.
Qed.

Lemma removeAllFrom_here (p : string) (c : ascii) (s : string) :
  removeAllFrom p 0 (String c s)
  = if String.prefix p (String c s)
    then removeAllFrom p (String.length p - 1) s
    else String c (removeAllFrom p 0 s).
Proof. reflexivity. Qed.

(** Where the pattern does not occur nothing is removed. *)
Lemma removeAll_absent (p s : string) :
  includes s p = false -> removeAll p s = s.
Proof.
  unfold removeAll. induction s as [|c s IH]; intros H; [reflexivity|].
  rewrite includes_cons in H. apply orb_false_iff in H. destruct H as [Hp Hs].
  rewrite removeAllFrom_here, Hp. now rewrite IH.
Qed.

(** ** The text the assistant returns *)

Lemma fence_start (s : string) :
  String.prefix "```" s = true ->
  exists t, s = String "`" (String "`" (String "`" t)).
Proof.
  destruct s as [|a [|b [|c t]]]; try discriminate;
    rewrite !prefix_cons;
    destruct (ascii_dec "`" a); try discriminate;
    destruct (ascii_dec "`" b); try discriminate;
    destruct (ascii_dec "`" c); try discriminate.
  intros _. subst. now exists t.
Qed.

(** What follows a removed fence, or a text that does not start with two
    backquotes, does not start with two backquotes after the removal. *)
Lemma removeAll_fence_start (s : string) :
  String.prefix "``" s = false ->
  String.prefix "``" (removeAllFrom "```" 0 s) = false.
Proof.
  intros H. destruct s as [|c s]; [reflexivity|].
  assert (Hfence : String.prefix "```" (String c s) = false).
  { destruct (String.prefix "```" (String c s)) eqn:E; [|reflexivity].
    apply (prefix_weaken "``" "`") in E. congruence. }
  rewrite removeAllFrom_here, Hfence.
  rewrite prefix_cons in *. destruct (ascii_dec "`" c) as [<-|]; [|reflexivity].
  destruct s as [|d t]; [reflexivity|].
  rewrite prefix_cons in H. destruct (ascii_dec "`" d) as [<-|Hd].
  - now rewrite prefix_empty in H.
  - assert (Hnext : String.prefix "```" (String d t) = false)
      by now apply prefix_cons_other.
    rewrite removeAllFrom_here, Hnext. now apply prefix_cons_other.
Qed.

Lemma removeAll_fence_free_upto (n : nat) (s : string) :
  (String.length s <= n)%nat ->
  includes (removeAllFrom "```" 0 s) "```" = false.
Proof.
  revert s. induction n as [|n IH]; intros s Hlen.
  - destruct s; [reflexivity|simpl in Hlen; lia].
  - destruct s as [|c s]; [reflexivity|].
    rewrite removeAllFrom_here.
    destruct (String.prefix "```" (String c s)) eqn:E.
    + apply fence_start in E. destruct E as [t Ht].
      injection Ht as -> ->.
      change (removeAllFrom "```" (String.length "```" - 1)
                            (String "`" (String "`" t)))
        with (removeAllFrom "```" 0 t).
      apply IH. simpl in Hlen. lia.
    + rewrite includes_cons. apply orb_false_iff. split.
      * rewrite prefix_cons in *.
        destruct (ascii_dec "`" c); [|reflexivity].
        now apply removeAll_fence_start.
      * apply IH. simpl in Hlen. lia.
Qed.

(** X1. Whatever the service answered, the text written into the block
    contains no code fence (three backquotes in a row). *)
Theorem cleanText_has_no_fence (generatedText : string) :
  includes (cleanText generatedText) "```" = false.
Proof.
  unfold cleanText, removeAll.
  apply (removeAll_fence_free_upto (String.length (removeAll "```html" generatedText))).
  apply Nat.le_refl.
Qed.

(** X2. An answer without a code fence is written into the block as it
    is. *)
Theorem cleanText_keeps_plain_text (generatedText : string) :
  includes generatedText "```" = false ->
  cleanText generatedText = generatedText.
Proof.
  intros H. unfold cleanText.
  rewrite (removeAll_absent "```html" generatedText).
  - now apply removeAll_absent.
  - exact (includes_weaken "```" "html" generatedText H).
Qed.

Lemma cleanText_keeps_plain_text_witness :
  includes "<p>Kyoto in the morning mist.</p>" "```" = false /\
  cleanText "<p>Kyoto in the morning mist.</p>" = "<p>Kyoto in the morning mist.</p>".
Proof.
  split; [reflexivity|].
  exact (cleanText_keeps_plain_text "<p>Kyoto in the morning mist.</p>" eq_refl).
Defined.

(** The usual wrapping of an answer is taken off. *)
Example cleanText_unwraps :
  cleanText "```html<p>Slow travel</p>```" = "<p>Slow travel</p>".
Proof. reflexivity. Qed.

(** ** The assistant's handler *)

Lemma aiContext_total blocks targetBlockId :
  exists context, aiContext blocks targetBlockId = Some context.
Proof.
  unfold aiContext.
  pose proof (findIndex_range (fun b => id b =? targetBlockId) blocks) as Hrange.
  destruct (_ - 1 >=? 0)%Z eqn:E; [|now exists EmptyString].
  rewrite Z.geb_leb in E. apply Z.leb_le in E.
  unfold at_index.
  destruct (_ - 1 <? 0)%Z eqn:Hneg; [apply Z.ltb_lt in Hneg; lia|].
  destruct (nth_error blocks _) as [prev|] eqn:Hnth.
  - now exists (content prev).
  - apply nth_error_None in Hnth. lia.
Qed.

(** X3. With pairwise distinct identifiers, the context sent along with the
    prompt for the block at position [i] is the content of the block at
    position [i - 1], and the empty string for the first block. *)
Theorem aiContext_is_previous_block blocks (i : nat) b :
  NoDup (ids blocks) -> nth_error blocks i = Some b ->
  aiContext blocks (id b) =
    Some match i with
         | O => EmptyString
         | S j => match nth_error blocks j with
                  | Some prev => content prev
                  | None => EmptyString
                  end
         end.
Proof.
  intros Hnd Hi. unfold aiContext.
  rewrite (findIndex_of_member blocks i b Hnd Hi).
  destruct i as [|j]; [reflexivity|].
  destruct (Z.of_nat (S j) - 1 >=? 0)%Z eqn:E;
    [|rewrite Z.geb_leb in E; apply Z.leb_gt in E; lia].
  unfold at_index.
  destruct (Z.of_nat (S j) - 1 <? 0)%Z eqn:Hneg; [apply Z.ltb_lt in Hneg; lia|].
  replace (Z.to_nat (Z.of_nat (S j) - 1)) with j by lia.
  destruct (nth_error blocks j) eqn:Hj; [reflexivity|].
  apply nth_error_None in Hj.
  assert (S j < List.length blocks)%nat by (apply nth_error_Some; congruence). lia.
Qed.

Lemma aiContext_is_previous_block_witness :
  nth_error mockBlocks 1
    = Some (mkBlock "b2" BlockTypes.Paragraph
                    "The morning mist clung to the mountains."
                    None (Some 100%Q) None None None) /\
  aiContext mockBlocks "b2" = Some "Arrival in Arashiyama".
Proof.
  split; [reflexivity|].
  exact (aiContext_is_previous_block mockBlocks 1
           (mkBlock "b2" BlockTypes.Paragraph
                    "The morning mist clung to the mountains."
                    None (Some 100%Q) None None None)
           NoDup_ids_mockBlocks eq_refl).
Defined.

(** X4. [handleAiGenerate] makes no call at all for a prompt that is blank
    after trimming.  For any other prompt it never fails, whatever the
    target, and once the service has answered it hands the host the
    sequence it was created for with the cleaned answer as content of the
    target: what the host held in the meantime is replaced. *)
Theorem handleAiGenerate_outcome (trim : string -> string) blocks
    (aiPrompt targetBlockId answer : string) :
  (trim aiPrompt = EmptyString ->
   forall ro, handleAiGenerate trim ro blocks aiPrompt targetBlockId = []) /\
  (trim aiPrompt <> EmptyString ->
   (forall ro,
       ~ In (Mutation ThrowTypeError)
            (handleAiGenerate trim ro blocks aiPrompt targetBlockId)) /\
   (forall ro,
       mutationsAfter answer
         (handleAiGenerate trim ro blocks aiPrompt targetBlockId)
       = updateBlock ro blocks targetBlockId (contentOnly (cleanText answer))) /\
   (forall current,
       hostBlocks
         (mutationsAfter answer
            (handleAiGenerate trim false blocks aiPrompt targetBlockId))
         current
       = map (fun b => if id b =? targetBlockId
                       then spread b (contentOnly (cleanText answer)) else b)
             blocks)).
Proof.
  split.
  - intros Hblank ro. unfold handleAiGenerate. now rewrite Hblank, String.eqb_refl.
  - intros Hprompt. apply String.eqb_neq in Hprompt.
    destruct (aiContext_total blocks targetBlockId) as [context Hctx].
    assert (Hafter : forall ro,
      mutationsAfter answer
        (handleAiGenerate trim ro blocks aiPrompt targetBlockId)
      = updateBlock ro blocks targetBlockId (contentOnly (cleanText answer))).
    { intros ro. unfold handleAiGenerate. rewrite Hprompt, Hctx.
      destruct ro; reflexivity. }
    split; [|split].
    + intros ro. unfold handleAiGenerate. rewrite Hprompt, Hctx.
      simpl. intros [E|[E|[]]]; discriminate E.
    + exact Hafter.
    + intros current. rewrite Hafter. apply hostBlocks_updateBlock.
Qed.

(** ** Keyboard *)

(** X5. In an editor that is not read-only and whose identifiers are
    pairwise distinct, Enter (without Shift) in the block at position [k]
    suppresses the line break, inserts a new empty paragraph right after
    that block, and, when the timer has run, makes the new block the active
    one. *)
Theorem enter_inserts_paragraph_after (seq : list ContentBlock) (k : nat) b rnd :
  NoDup (ids seq) -> nth_error seq k = Some b ->
  let calls := onKeyDown false seq b rnd (mkKey "Enter" false) in
  let h := flush (performAll (mkHost seq None None false [] false) calls) in
  defaultPrevented h = true /\
  blocks h = firstn (S k) seq ++ newBlock rnd BlockTypes.Paragraph :: skipn (S k) seq /\
  activeBlockId h = Some (newId rnd) /\
  crashed h = false.
Proof.
  intros Hnd Hk. cbv zeta.
  pose proof (addBlock_after_member seq k b BlockTypes.Paragraph rnd Hnd Hk) as Hadd.
  rewrite hostBlocks_addBlock in Hadd.
  assert (Hcalls : onKeyDown false seq b rnd (mkKey "Enter" false)
                   = PreventDefault :: addBlock false seq (id b) BlockTypes.Paragraph rnd)
    by (unfold onKeyDown; simpl; reflexivity).
  rewrite Hcalls. unfold addBlock. cbv zeta. rewrite Hadd.
  repeat split.
Qed.

Lemma enter_inserts_paragraph_after_witness :
  nth_error mockBlocks 0
    = Some (mkBlock "b1" BlockTypes.Heading1 "Arrival in Arashiyama"
                    None (Some 100%Q) None None None) /\
  activeBlockId
    (flush (performAll (mkHost mockBlocks None None false [] false)
              (onKeyDown false mockBlocks
                 (mkBlock "b1" BlockTypes.Heading1 "Arrival in Arashiyama"
                          None (Some 100%Q) None None None)
                 "0.7hq2m9x4pd1" (mkKey "Enter" false))))
  = Some "7hq2m9x4p".
Proof.
  split; [reflexivity|].
  exact (proj1 (proj2 (proj2
           (enter_inserts_paragraph_after mockBlocks 0
              (mkBlock "b1" BlockTypes.Heading1 "Arrival in Arashiyama"
                       None (Some 100%Q) None None None)
              "0.7hq2m9x4pd1" NoDup_ids_mockBlocks eq_refl)))).
Defined.

(** Backspace in a block that has content, and Enter with Shift, are
    left to the browser: no call is made and the default is not
    suppressed.  Backspace in the only block, when it is empty, is
    swallowed: the default is suppressed and nothing is removed. *)
Theorem keys_without_structural_effect ro b rnd :
  (content b <> EmptyString ->
   forall seq, onKeyDown ro seq b rnd (mkKey "Backspace" false) = []) /\
  (forall seq, onKeyDown ro seq b rnd (mkKey "Enter" true) = []) /\
  (content b = EmptyString ->
   onKeyDown ro [b] b rnd (mkKey "Backspace" false) = [PreventDefault] /\
   blocks (performAll (mkHost [b] None None false [] false)
                      (onKeyDown ro [b] b rnd (mkKey "Backspace" false))) = [b]).
Proof.
  split; [|split].
  - intros Hc seq. apply String.eqb_neq in Hc. unfold onKeyDown. simpl. now rewrite Hc.
  - intros seq. reflexivity.
  - intros Hc. unfold onKeyDown, removeBlock. simpl.
    rewrite Hc, orb_true_r. split; reflexivity.
Qed.

(** X6. In an editor that is not read-only, Backspace in an empty block at
    position [j + 1] of a sequence with pairwise distinct identifiers
    removes that block and makes the block at position [j] the active
    one. *)
Theorem backspace_removes_empty_block (seq : list ContentBlock) (j : nat)
    b rnd :
  NoDup (ids seq) -> nth_error seq (S j) = Some b -> content b = EmptyString ->
  exists prev,
    nth_error seq j = Some prev /\
    let h := performAll (mkHost seq None None false [] false)
                        (onKeyDown false seq b rnd (mkKey "Backspace" false)) in
    defaultPrevented h = true /\
    blocks h = firstn (S j) seq ++ skipn (S (S j)) seq /\
    activeBlockId h = Some (id prev) /\
    crashed h = false.
Proof.
  intros Hnd Hb Hc.
  assert (Hsj : (S j < List.length seq)%nat) by (apply nth_error_Some; congruence).
  assert (Hlen : (1 < List.length seq)%nat) by lia.
  pose proof (findIndex_of_member seq (S j) b Hnd Hb) as Hidx.
  pose proof (filter_id_of_member seq (S j) b Hnd Hb) as Hfilter.
  destruct (nth_error seq j) as [prev|] eqn:Hprev;
    [|apply nth_error_None in Hprev; lia].
  exists prev. split; [reflexivity|]. cbv zeta.
  unfold onKeyDown, removeBlock. simpl. rewrite Hc. simpl.
  destruct (List.length seq <=? 1)%nat eqn:E; [apply Nat.leb_le in E; lia|].
  rewrite Hidx.
  destruct (Z.of_nat (S j) >? 0)%Z eqn:Hpos;
    [|rewrite Z.gtb_ltb in Hpos; apply Z.ltb_ge in Hpos; lia].
  assert (Hat : at_index (filter (fun x => negb (id x =? id b)) seq)
                         (Z.of_nat (S j) - 1) = Some prev).
  { unfold at_index.
    destruct (Z.of_nat (S j) - 1 <? 0)%Z eqn:Hneg; [apply Z.ltb_lt in Hneg; lia|].
    replace (Z.to_nat (Z.of_nat (S j) - 1)) with j by lia.
    rewrite (filter_before_first (fun x => id x =? id b) seq (S j) j Hidx) by lia.
    exact Hprev. }
  rewrite Hat, Hfilter. repeat split.
Qed.

Lemma backspace_removes_empty_block_witness :
  nth_error (firstn 3 mockBlocks) 2
    = Some (mkBlock "b3" BlockTypes.Image EmptyString
                    (Some "https://images.unsplash.com/photo-1624253321171")
                    (Some 100%Q) None None None) /\
  exists prev,
    nth_error (firstn 3 mockBlocks) 1 = Some prev /\
    activeBlockId
      (performAll (mkHost (firstn 3 mockBlocks) None None false [] false)
         (onKeyDown false (firstn 3 mockBlocks)
            (mkBlock "b3" BlockTypes.Image EmptyString
                     (Some "https://images.unsplash.com/photo-1624253321171")
                     (Some 100%Q) None None None)
            "0.x" (mkKey "Backspace" false)))
    = Some (id prev).
Proof.
  split; [reflexivity|].
  assert (Hnd : NoDup (ids (firstn 3 mockBlocks))).
  { simpl. repeat constructor; simpl; intuition discriminate. }
  destruct (backspace_removes_empty_block (firstn 3 mockBlocks) 1
              (mkBlock "b3" BlockTypes.Image EmptyString
                       (Some "https://images.unsplash.com/photo-1624253321171")
                       (Some 100%Q) None None None)
              "0.x" Hnd eq_refl eq_refl) as (prev & Hprev & _ & _ & Hactive & _).
  exists prev. split; [exact Hprev|exact Hactive].
Defined.

(** X7. The button "Add block at end": in a non-empty sequence with
    pairwise distinct identifiers the new paragraph becomes the last block;
    on an empty sequence the handler fails before it calls anything. *)
Theorem addBlockAtEnd_appends (seq : list ContentBlock) rnd :
  (seq <> [] -> NoDup (ids seq) ->
   hostBlocks (addBlockAtEnd false seq rnd) seq
   = seq ++ [newBlock rnd BlockTypes.Paragraph]) /\
  (forall ro, addBlockAtEnd ro [] rnd = [ThrowTypeError]).
Proof.
  split; [|reflexivity].
  intros Hne Hnd.
  assert (Hlen : (0 < List.length seq)%nat)
    by (destruct seq; [contradiction|simpl; lia]).
  unfold addBlockAtEnd, at_index.
  destruct (Z.of_nat (List.length seq) - 1 <? 0)%Z eqn:Hneg;
    [apply Z.ltb_lt in Hneg; lia|].
  replace (Z.to_nat (Z.of_nat (List.length seq) - 1))
    with (Nat.pred (List.length seq)) by lia.
  destruct (nth_error seq (Nat.pred (List.length seq))) as [last|] eqn:Hlast;
    [|apply nth_error_None in Hlast; lia].
  rewrite (addBlock_after_member seq _ last BlockTypes.Paragraph rnd Hnd Hlast).
  replace (S (Nat.pred (List.length seq))) with (List.length seq) by lia.
  now rewrite firstn_all, skipn_all.
Qed.

(** ** Embedding a video *)

Lemma replaceFirst_absent (pat rep s : string) :
  includes s pat = false -> replaceFirst pat rep s = s.
Proof.
  unfold includes, replaceFirst. now destruct (String.index 0 pat s).
Qed.

(** X8. For every video identifier (and whatever follows it) the watch link
    of the video is stored as its embed link; an address that contains
    neither "youtube.com/watch?v=" nor "youtu.be/" is stored as it was
    typed. *)
Theorem embedUrl_watch_link :
  (forall video : string,
      embedUrl ("https://www.youtube.com/watch?v=" ++ video)
      = ("https://www.youtube.com/embed/" ++ video)%string) /\
  (forall value : string,
      includes value "youtube.com/watch?v=" = false ->
      includes value "youtu.be/" = false ->
      embedUrl value = value).
Proof.
  split.
  - intros video. unfold embedUrl, includes, replaceFirst.
    cbn. rewrite !prefix_empty. cbn.
    rewrite Nat.sub_0_r. now rewrite substring_whole.
  - intros value H1 H2. unfold embedUrl. now rewrite H1, H2.
Qed.

(** X9. For every video identifier that does not itself contain
    "youtube.com/watch?v=", the short share link of the video is stored as
    its embed link. *)
Theorem embedUrl_short_link (video : string) :
  includes video "youtube.com/watch?v=" = false ->
  embedUrl ("https://youtu.be/" ++ video)
  = ("https://youtube.com/embed/" ++ video)%string.
Proof.
  intros Hvideo. unfold embedUrl.
  assert (Hwatch : includes ("https://youtu.be/" ++ video) "youtube.com/watch?v=" = false).
  { cbn [append]. rewrite !includes_cons, Hvideo.
    rewrite !prefix_cons. cbn. reflexivity. }
  rewrite Hwatch.
  unfold includes, replaceFirst.
  cbn. rewrite !prefix_empty. cbn.
  rewrite Nat.sub_0_r. now rewrite substring_whole.
Qed.

Lemma embedUrl_short_link_witness :
  includes "dQw4w9WgXcQ?t=42" "youtube.com/watch?v=" = false /\
  embedUrl "https://youtu.be/dQw4w9WgXcQ?t=42"
  = "https://youtube.com/embed/dQw4w9WgXcQ?t=42".
Proof.
  split; [reflexivity|].
  exact (embedUrl_short_link "dQw4w9WgXcQ?t=42" eq_refl).
Defined.

(** The watch pattern is tried first: a short link whose tail contains a
    watch link has that tail rewritten, and keeps "youtu.be/". *)
Example embedUrl_watch_first :
  embedUrl "https://youtu.be/x?next=youtube.com/watch?v=y"
  = "https://youtu.be/x?next=youtube.com/embed/y".
Proof. reflexivity. Qed.

(** ** The two states of a media block *)

(** X10. A block that has text and no [src] and is turned into an image
    keeps its text, so [MediaBlock] does not show the upload prompt for it:
    it shows the media frame with no source, at the block's width. *)
Theorem retyped_text_block_has_no_upload_prompt (seq : list ContentBlock)
    (k : nat) b (ro : bool) (active : option string) :
  nth_error seq k = Some b -> content b <> EmptyString ->
  exists b',
    nth_error (hostBlocks (retype false seq (id b) BlockTypes.Image) seq) k
      = Some b' /\
    content b' = content b /\
    renderBlockContent ro active b' = MediaBlock b' ro false /\
    renderMediaBlock b' ro false
      = MediaFrame false (src b) (widthOr100 (width b)) (align b)
                   (negb ro) (negb ro).
Proof.
  intros Hk Hc. apply String.eqb_neq in Hc.
  exists (spread b (typeOnly BlockTypes.Image)).
  unfold retype. rewrite hostBlocks_updateBlock.
  rewrite nth_error_map, Hk. simpl. rewrite String.eqb_refl.
  split; [reflexivity|]. split; [reflexivity|]. split; [reflexivity|].
  unfold renderMediaBlock. simpl. rewrite Hc, andb_false_r. reflexivity.
Qed.

Lemma retyped_text_block_has_no_upload_prompt_witness :
  nth_error draftBlocks 0
    = Some (mkBlock "p1" BlockTypes.Paragraph "draft" None (Some 100%Q) None
                    (Some Left) None) /\
  exists b',
    nth_error (hostBlocks (retype false draftBlocks "p1" BlockTypes.Image)
                          draftBlocks) 0 = Some b' /\
    renderMediaBlock b' false false
      = MediaFrame false None 100 (Some Left) true true.
Proof.
  split; [reflexivity|].
  assert (Hc : "draft" <> EmptyString) by discriminate.
  destruct (retyped_text_block_has_no_upload_prompt draftBlocks 0
              (mkBlock "p1" BlockTypes.Paragraph "draft" None (Some 100%Q) None
                       (Some Left) None)
              false None eq_refl Hc) as (b' & Hb' & _ & _ & Hview).
  exists b'. split; [exact Hb'|exact Hview].
Defined.

(** ** Arrays, continued *)

Section JSArrayFacts2.
Context {A : Type}.
Implicit Types (p : A -> bool) (l : list A).

(** Either nothing satisfies the predicate and [findIndex] is [-1], or the
    array splits at the index it returns. *)
Lemma findIndex_split p l :
  (findIndex p l = (-1)%Z /\ forall x, In x l -> p x = false) \/
  (exists pre x suf,
      l = pre ++ x :: suf /\ findIndex p l = Z.of_nat (List.length pre) /\
      p x = true /\ forall y, In y pre -> p y = false).
Proof.
  induction l as [|a l IH]; simpl.
  - left. split; [reflexivity|]. intros x [].
  - destruct (p a) eqn:Ha.
    + right. exists [], a, l. repeat split; auto. intros y [].
    + destruct IH as [[Hidx Hall]|(pre & x & suf & Hl & Hidx & Hx & Hpre)].
      * left. rewrite Hidx. split; [reflexivity|].
        intros x [<-|Hin]; auto.
      * right. exists (a :: pre), x, suf. rewrite Hidx. subst l.
        repeat split; auto.
        -- destruct (Z.of_nat (List.length pre) <? 0)%Z eqn:E;
             [apply Z.ltb_lt in E; lia|]. simpl List.length. lia.
        -- intros y [<-|Hin]; auto.
Qed.

Lemma at_index_middle (pre suf : list A) (x : A) :
  at_index (pre ++ x :: suf) (Z.of_nat (List.length pre)) = Some x.
Proof.
  unfold at_index.
  destruct (Z.of_nat (List.length pre) <? 0)%Z eqn:E; [apply Z.ltb_lt in E; lia|].
  rewrite Nat2Z.id, nth_error_app2, Nat.sub_diag by lia. reflexivity.
Qed.

Lemma assignAt_middle (pre suf : list A) (x y : A) :
  assignAt (pre ++ x :: suf) (Z.of_nat (List.length pre)) y = pre ++ y :: suf.
Proof.
  unfold assignAt. rewrite length_app. simpl List.length.
  destruct ((0 <=? Z.of_nat (List.length pre))
            && (Z.of_nat (List.length pre)
                <? Z.of_nat (List.length pre + S (List.length suf))))%Z eqn:E.
  - rewrite Nat2Z.id.
    rewrite firstn_app, Nat.sub_diag, firstn_all, app_nil_r. simpl firstn.
    replace (S (List.length pre)) with (List.length pre + 1)%nat by lia.
    rewrite skipn_app, skipn_all2 by lia.
    replace (List.length pre + 1 - List.length pre)%nat with 1%nat by lia.
    reflexivity.
  - apply andb_false_iff in E. destruct E as [E|E];
      [apply Z.leb_gt in E|apply Z.ltb_ge in E]; lia.
Qed.

Lemma splice_remove_middle (pre suf : list A) (x : A) :
  splice_remove (pre ++ x :: suf) (Z.of_nat (List.length pre)) = pre ++ suf.
Proof.
  unfold splice_remove. rewrite length_app. simpl List.length.
  destruct (Z.of_nat (List.length pre) <? 0)%Z eqn:E; [apply Z.ltb_lt in E; lia|].
  replace (Z.to_nat (Z.min (Z.of_nat (List.length pre))
                           (Z.of_nat (List.length pre + S (List.length suf)))))
    with (List.length pre) by lia.
  rewrite firstn_app, Nat.sub_diag, firstn_all, app_nil_r. simpl firstn.
  replace (S (List.length pre)) with (List.length pre + 1)%nat by lia.
  rewrite skipn_app, skipn_all2 by lia.
  replace (List.length pre + 1 - List.length pre)%nat with 1%nat by lia.
  reflexivity.
Qed.

Lemma find_skip p (pre l : list A) :
  (forall y, In y pre -> p y = false) -> find p (pre ++ l) = find p l.
Proof.
  induction pre as [|a pre IH]; intros H; [reflexivity|].
  simpl. rewrite (H a) by now left. apply IH. intros y Hy. apply H. now right.
Qed.

Lemma findIndex_middle p (pre suf : list A) (x : A) :
  (forall y, In y pre -> p y = false) -> p x = true ->
  findIndex p (pre ++ x :: suf) = Z.of_nat (List.length pre).
Proof.
  intros Hpre Hx. induction pre as [|a pre IH]; simpl.
  - now rewrite Hx.
  - rewrite (Hpre a) by now left.
    rewrite IH by (intros y Hy; apply Hpre; now right).
    destruct (Z.of_nat (List.length pre) <? 0)%Z eqn:E;
      [apply Z.ltb_lt in E|]; lia.
Qed.

Lemma find_absent p l :
  (forall y, In y l -> p y = false) -> find p l = None.
Proof.
  intros H. rewrite <- (app_nil_r l). now rewrite find_skip.
Qed.

Lemma find_over_app p (l1 l2 : list A) :
  find p (l1 ++ l2) = match find p l1 with
                      | Some x => Some x
                      | None => find p l2
                      end.
Proof.
  induction l1 as [|a l1 IH]; [reflexivity|]. simpl.
  destruct (p a); [reflexivity|exact IH].
Qed.

Lemma filter_and (f g : A -> bool) l :
  filter f (filter g l) = filter (fun x => g x && f x) l.
Proof.
  induction l as [|a l IH]; [reflexivity|]. simpl.
  destruct (g a); simpl; [destruct (f a)|]; now rewrite IH.
Qed.
End JSArrayFacts2.

(** ** The home page *)

(** X11. The posts of the home page are the posts that are published, are
    of the selected category (any, for 'All') and, unless the query is
    blank after trimming, contain the lower-cased query in the lower-cased
    title, excerpt or one of the tags; they come in the order of the post
    list.  In particular no draft is listed. *)
Theorem filteredPosts_characterised (toLowerCase trim : string -> string)
    (posts : list Post.BlogPost) (selectedCategory : option Category)
    (searchQuery : string) :
  filteredPosts toLowerCase trim posts selectedCategory searchQuery
  = filter (fun p =>
              PostStatus_eqb (Post.status p) published
              && match selectedCategory with
                 | Some c => Category_eqb (Post.category p) c
                 | None => true
                 end
              && ((trim searchQuery =? EmptyString)
                  || matchesQuery toLowerCase (toLowerCase searchQuery) p))
           posts
  /\ forall p,
       In p (filteredPosts toLowerCase trim posts selectedCategory searchQuery) ->
       In p posts /\ Post.status p = published.
Proof.
  assert (Heq : filteredPosts toLowerCase trim posts selectedCategory searchQuery
    = filter (fun p =>
                PostStatus_eqb (Post.status p) published
                && match selectedCategory with
                   | Some c => Category_eqb (Post.category p) c
                   | None => true
                   end
                && ((trim searchQuery =? EmptyString)
                    || matchesQuery toLowerCase (toLowerCase searchQuery) p))
             posts).
  { unfold filteredPosts.
    destruct selectedCategory as [c|]; destruct (trim searchQuery =? EmptyString);
      simpl; rewrite ?filter_and; apply filter_ext; intros p;
      destruct (PostStatus_eqb (Post.status p) published); simpl;
      rewrite ?andb_true_r; reflexivity. }
  split; [exact Heq|].
  intros p Hin. rewrite Heq in Hin. apply filter_In in Hin.
  destruct Hin as [Hin Hp]. split; [exact Hin|].
  apply andb_true_iff in Hp. destruct Hp as [Hp _].
  apply andb_true_iff in Hp. destruct Hp as [Hp _].
  now destruct (Post.status p).
Qed.

(** ** The dashboard *)

(** X12. On the dashboard the figures "Published" and "Drafts" add up to
    "Total Posts". *)
Theorem dashboard_counts_add_up (posts : list Post.BlogPost) :
  (publishedCount posts + draftCount posts = List.length posts)%nat.
Proof.
  unfold publishedCount, draftCount.
  induction posts as [|p posts IH]; [reflexivity|].
  simpl. destruct (Post.status p); simpl; lia.
Qed.

(** ** Saving and deleting posts *)

Lemma findPost_skip (pre l : list Post.BlogPost) (postId : string) :
  (forall y, In y pre -> (Post.id y =? postId) = false) ->
  findPost (pre ++ l) postId = findPost l postId.
Proof. intros H. unfold findPost. now apply find_skip. Qed.

(** The two shapes of a save: the post is new and put first, or it takes
    the place of the first post with its identifier. *)
Lemma savePostUpdate_shape (prev : list Post.BlogPost) (post : Post.BlogPost) :
  (findPost prev (Post.id post) = None /\
   savePostUpdate prev post
   = Some (post :: prev, PostStatus_eqb (Post.status post) published)) \/
  (exists pre old suf,
      prev = pre ++ old :: suf /\
      Post.id old = Post.id post /\
      (forall y, In y pre -> (Post.id y =? Post.id post) = false) /\
      findPost prev (Post.id post) = Some old /\
      savePostUpdate prev post
      = Some (pre ++ post :: suf,
              PostStatus_eqb (Post.status old) draft
              && PostStatus_eqb (Post.status post) published)).
Proof.
  unfold savePostUpdate.
  destruct (findIndex_split (fun p => Post.id p =? Post.id post) prev)
    as [[Hidx Hall]|(pre & old & suf & Hprev & Hidx & Hold & Hpre)].
  - left. rewrite Hidx. simpl. split; [|reflexivity].
    unfold findPost. apply find_absent. exact Hall.
  - right. exists pre, old, suf. rewrite Hidx. subst prev.
    destruct (Z.of_nat (List.length pre) >=? 0)%Z eqn:E;
      [|rewrite Z.geb_leb in E; apply Z.leb_gt in E; lia].
    rewrite at_index_middle, assignAt_middle.
    repeat split; auto.
    + now apply String.eqb_eq.
    + rewrite findPost_skip by exact Hpre. unfold findPost. simpl. now rewrite Hold.
Qed.

(** X13. Saving a post never fails, and afterwards looking up the saved
    post's identifier finds the saved post, while the lookup of any other
    identifier finds what it found before. *)
Theorem saved_post_is_found (prev : list Post.BlogPost) (post : Post.BlogPost) :
  exists posts isNewPublish,
    savePostUpdate prev post = Some (posts, isNewPublish) /\
    findPost posts (Post.id post) = Some post /\
    forall other, other <> Post.id post ->
                  findPost posts other = findPost prev other.
Proof.
  destruct (savePostUpdate_shape prev post)
    as [[Hnone Hsave]|(pre & old & suf & Hprev & Hid & Hpre & Hfound & Hsave)].
  - eexists _, _. split; [exact Hsave|]. unfold findPost. simpl.
    rewrite String.eqb_refl. split; [reflexivity|].
    intros other Hother. apply not_eq_sym in Hother.
    apply String.eqb_neq in Hother. now rewrite Hother.
  - eexists _, _. split; [exact Hsave|]. split.
    + rewrite findPost_skip by exact Hpre. unfold findPost. simpl.
      now rewrite String.eqb_refl.
    + intros other Hother. subst prev.
      assert (Hne : (Post.id post =? other) = false)
        by (apply String.eqb_neq; congruence).
      unfold findPost. rewrite !find_over_app.
      destruct (find (fun p => Post.id p =? other) pre); [reflexivity|].
      simpl. rewrite Hid, Hne. reflexivity.
Qed.

(** X14. A save of a post whose identifier is not in the list makes the
    list one longer; any other save leaves its length.  The save counts as
    a new publication exactly when the saved post is published and either
    is new or takes the place of a draft.  Saving the same post once more
    changes nothing and is never a new publication. *)
Theorem savePostUpdate_effect (prev : list Post.BlogPost) (post : Post.BlogPost) :
  exists posts isNewPublish,
    savePostUpdate prev post = Some (posts, isNewPublish) /\
    List.length posts =
      match findPost prev (Post.id post) with
      | Some _ => List.length prev
      | None => S (List.length prev)
      end /\
    isNewPublish =
      PostStatus_eqb (Post.status post) published
      && match findPost prev (Post.id post) with
         | Some old => PostStatus_eqb (Post.status old) draft
         | None => true
         end /\
    savePostUpdate posts post = Some (posts, false).
Proof.
  assert (Hagain : forall pre suf,
    (forall y, In y pre -> (Post.id y =? Post.id post) = false) ->
    savePostUpdate (pre ++ post :: suf) post = Some (pre ++ post :: suf, false)).
  { intros pre suf Hpre. unfold savePostUpdate.
    rewrite (findIndex_middle _ pre suf post Hpre (String.eqb_refl _)).
    destruct (Z.of_nat (List.length pre) >=? 0)%Z eqn:E;
      [|rewrite Z.geb_leb in E; apply Z.leb_gt in E; lia].
    rewrite at_index_middle, assignAt_middle.
    now destruct (Post.status post). }
  destruct (savePostUpdate_shape prev post)
    as [[Hnone Hsave]|(pre & old & suf & Hprev & Hid & Hpre & Hfound & Hsave)].
  - eexists _, _. split; [exact Hsave|]. rewrite Hnone.
    split; [reflexivity|]. split; [now rewrite andb_true_r|].
    apply (Hagain [] prev). intros y [].
  - eexists _, _. split; [exact Hsave|]. rewrite Hfound.
    split; [subst prev; rewrite !length_app; reflexivity|].
    split; [apply andb_comm|].
    now apply Hagain.
Qed.

Lemma findPost_filter_other (l : list Post.BlogPost) (gone other : string) :
  other <> gone ->
  findPost (filter (fun p => negb (Post.id p =? gone)) l) other = findPost l other.
Proof.
  intros Hne. unfold findPost.
  induction l as [|a l IH]; [reflexivity|]. simpl.
  destruct (Post.id a =? gone) eqn:Ea; simpl.
  - apply String.eqb_eq in Ea.
    assert (Hskip : (Post.id a =? other) = false)
      by (apply String.eqb_neq; congruence).
    now rewrite Hskip.
  - destruct (Post.id a =? other); [reflexivity|exact IH].
Qed.

(** X15. A confirmed deletion leaves no post with the deleted identifier
    and does not change what the lookup of any other identifier finds; a
    deletion that was not confirmed leaves the list as it is. *)
Theorem deleted_post_is_gone (prev : list Post.BlogPost) (postId : string) :
  findPost (handleDeletePost true prev postId) postId = None /\
  (forall other, other <> postId ->
     findPost (handleDeletePost true prev postId) other = findPost prev other) /\
  handleDeletePost false prev postId = prev.
Proof.
  split; [|split; [|reflexivity]].
  - unfold handleDeletePost, findPost. apply find_absent.
    intros y Hy. apply filter_In in Hy. destruct Hy as [_ Hy].
    now apply negb_true_iff in Hy.
  - intros other Hne. now apply findPost_filter_other.
Qed.

(** X16. Deleting a post right after it was saved as a new post gives back
    the list as it was before the save. *)
Theorem save_new_then_delete (prev : list Post.BlogPost) (post : Post.BlogPost) :
  findPost prev (Post.id post) = None ->
  exists posts isNewPublish,
    savePostUpdate prev post = Some (posts, isNewPublish) /\
    handleDeletePost true posts (Post.id post) = prev.
Proof.
  intros Hnone.
  destruct (savePostUpdate_shape prev post)
    as [[_ Hsave]|(pre & old & suf & _ & _ & _ & Hfound & _)]; [|congruence].
  eexists _, _. split; [exact Hsave|].
  unfold handleDeletePost. simpl. rewrite String.eqb_refl. simpl.
  apply forallb_filter_id. apply forallb_forall. intros y Hy.
  apply negb_true_iff. exact (find_none _ _ Hnone y Hy).
Qed.

Lemma save_new_then_delete_witness :
  findPost [wardrobePost] (Post.id kyotoPost) = None /\
  exists posts isNewPublish,
    savePostUpdate [wardrobePost] kyotoPost = Some (posts, isNewPublish) /\
    handleDeletePost true posts (Post.id kyotoPost) = [wardrobePost].
Proof.
  split; [reflexivity|].
  exact (save_new_then_delete [wardrobePost] kyotoPost eq_refl).
Defined.

(** ** Subscribers *)




(** ** The router *)


(** ** Saving from the editor *)

(** X19. Whatever is in the fields, the post the editor saves has a
    non-empty title, no tags, no scheduled date and no like count.  When an
    existing post with a non-empty identifier, author and date is edited,
    the saved post keeps that identifier, author, date and view count. *)
Theorem handleSave_keeps_and_drops (initialPost : option Post.BlogPost)
    (f : EditorFields) (rnd now : string) :
  let saved := handleSave initialPost f rnd now in
  Post.title saved <> EmptyString /\
  Post.tags saved = [] /\
  Post.scheduledAt saved = None /\
  Post.likesCount saved = None /\
  (forall p, initialPost = Some p ->
             Post.id p <> EmptyString -> Post.author p <> EmptyString ->
             Post.publishedAt p <> EmptyString ->
             Post.id saved = Post.id p /\ Post.author saved = Post.author p /\
             Post.publishedAt saved = Post.publishedAt p /\
             Post.views saved = Post.views p).
Proof.
  cbv zeta. split; [|repeat split].
  - simpl. destruct (e_title f =? EmptyString) eqn:E; [discriminate|].
    now apply String.eqb_neq.
  - subst. simpl. apply String.eqb_neq in H0. now rewrite H0.
  - subst. simpl. apply String.eqb_neq in H1. now rewrite H1.
  - subst. simpl. apply String.eqb_neq in H2. now rewrite H2.
  - subst. simpl. now destruct (Post.views p =? 0)%Z eqn:E; [apply Z.eqb_eq in E|].
Qed.

(** X20. Opening a post in the editor and saving it without an edit gives
    the post back with its tags, scheduled date and like count taken off
    and nothing else changed, provided its identifier, title, cover image,
    author and date are not empty. *)
Theorem open_and_save_unchanged (p : Post.BlogPost) (rnd now : string) :
  Post.id p <> EmptyString -> Post.title p <> EmptyString ->
  Post.coverImage p <> EmptyString -> Post.author p <> EmptyString ->
  Post.publishedAt p <> EmptyString ->
  handleSave (Some p) (initialFields (Some p)) rnd now
  = Post.mk (Post.id p) (Post.title p) (Post.excerpt p) (Post.coverImage p)
            (Post.category p) [] (Post.blocks p) (Post.author p)
            (Post.publishedAt p) None (Post.status p) (Post.views p) None.
Proof.
  intros Hid Htitle Hcover Hauthor Hdate.
  apply String.eqb_neq in Hid, Htitle, Hcover, Hauthor, Hdate.
  unfold handleSave, initialFields. simpl.
  rewrite Hid, Htitle, Hcover, Hauthor, Hdate. simpl. rewrite Htitle.
  f_equal.
  - now destruct (Post.excerpt p =? EmptyString) eqn:E; [apply String.eqb_eq in E|].
  - now destruct (Post.views p =? 0)%Z eqn:E; [apply Z.eqb_eq in E|].
Qed.

Lemma open_and_save_unchanged_witness :
  Post.id kyotoPost <> EmptyString /\
  Post.tags (handleSave (Some kyotoPost) (initialFields (Some kyotoPost))
                        "0.q1w2e3r4t5y" "2024-01-01T00:00:00.000Z") = [] /\
  Post.blocks (handleSave (Some kyotoPost) (initialFields (Some kyotoPost))
                          "0.q1w2e3r4t5y" "2024-01-01T00:00:00.000Z")
  = mockBlocks.
Proof.
  split; [discriminate|].
  rewrite (open_and_save_unchanged kyotoPost "0.q1w2e3r4t5y"
             "2024-01-01T00:00:00.000Z");
    [split; reflexivity|discriminate..].
Defined.

(** X22. The editor starts with the blocks of the post it is given, and
    with one empty paragraph only when it is given none.  For a post that
    has no blocks the editor therefore shows no block, and its button "Add
    block at end" fails. *)
Theorem editor_of_post_without_blocks (p : Post.BlogPost) (rnd : string) :
  e_blocks (initialFields None) = initialBlocks /\
  e_blocks (initialFields (Some p)) = Post.blocks p /\
  (Post.blocks p = [] ->
   renderEditorBody false None (e_blocks (initialFields (Some p))) = [] /\
   addBlockAtEnd false (e_blocks (initialFields (Some p))) rnd = [ThrowTypeError]).
Proof.
  split; [reflexivity|]. split; [reflexivity|].
  simpl. intros ->. split; reflexivity.
Qed.

(** ** Likes *)

Lemma sameLike_eq (postId userId : string) (l : Likes.Like) :
  sameLike postId userId l = true -> l = Likes.mk postId userId.
Proof.
  unfold sameLike. destruct l as [p u]. simpl. intros H.
  apply andb_true_iff in H. destruct H as [Hp Hu].
  apply String.eqb_eq in Hp, Hu. now subst.
Qed.

Lemma sameLike_refl (postId userId : string) :
  sameLike postId userId (Likes.mk postId userId) = true.
Proof. unfold sameLike. simpl. now rewrite !String.eqb_refl. Qed.

Lemma likesOfPost_app (postId : string) (l1 l2 : list Likes.Like) :
  likesOfPost postId (l1 ++ l2)
  = (likesOfPost postId l1 + likesOfPost postId l2)%nat.
Proof. unfold likesOfPost. now rewrite filter_app, length_app. Qed.

(** The two shapes of a toggle: the like is added at the end, or its first
    entry is taken out. *)
Lemma toggleLike_shape (stored : option (list Likes.Like)) (postId userId : string) :
  ((forall l, In l (getStorage stored) -> sameLike postId userId l = false) /\
   toggleLike stored postId userId
   = (Some (getStorage stored ++ [Likes.mk postId userId]),
      mkLikeStatus true (S (likesOfPost postId (getStorage stored))))) \/
  (exists pre suf,
      getStorage stored = pre ++ Likes.mk postId userId :: suf /\
      (forall l, In l pre -> sameLike postId userId l = false) /\
      likesOfPost postId (getStorage stored) = S (likesOfPost postId (pre ++ suf)) /\
      toggleLike stored postId userId
      = (Some (pre ++ suf), mkLikeStatus false (likesOfPost postId (pre ++ suf)))).
Proof.
  unfold toggleLike.
  destruct (findIndex_split (sameLike postId userId) (getStorage stored))
    as [[Hidx Hall]|(pre & x & suf & Hl & Hidx & Hx & Hpre)].
  - left. split; [exact Hall|]. rewrite Hidx. simpl.
    rewrite likesOfPost_app. unfold likesOfPost at 2. simpl.
    rewrite String.eqb_refl. simpl. f_equal. f_equal. lia.
  - right. apply sameLike_eq in Hx. subst x. exists pre, suf.
    rewrite Hidx, Hl.
    destruct (Z.of_nat (List.length pre) >=? 0)%Z eqn:E;
      [|rewrite Z.geb_leb in E; apply Z.leb_gt in E; lia].
    rewrite splice_remove_middle. simpl.
    repeat split; auto.
    rewrite !likesOfPost_app. unfold likesOfPost at 2 4. simpl.
    rewrite String.eqb_refl. simpl. lia.
Qed.

Lemma existsb_none {A : Type} (p : A -> bool) (l : list A) :
  (forall x, In x l -> p x = false) -> existsb p l = false.
Proof.
  intros H. destruct (existsb p l) eqn:E; [|reflexivity].
  apply existsb_exists in E. destruct E as (x & Hx & Hp).
  rewrite (H x Hx) in Hp. discriminate.
Qed.

(** With at most one entry per reader and post, nothing of the removed like
    is left. *)
Lemma removed_like_is_gone (pre suf : list Likes.Like) (postId userId : string) :
  NoDup (pre ++ Likes.mk postId userId :: suf) ->
  (forall l, In l pre -> sameLike postId userId l = false) ->
  existsb (sameLike postId userId) (pre ++ suf) = false.
Proof.
  intros Hnd Hpre. apply existsb_none. intros l Hl.
  destruct (sameLike postId userId l) eqn:E; [|reflexivity].
  apply sameLike_eq in E. subst l.
  apply NoDup_remove_2 in Hnd. contradiction.
Qed.

(** X23. For a reader whose identifier is not empty, when local storage
    holds at most one like per reader and post, [toggleLike] returns the opposite of what [getLikeStatus] said before,
    with the count one higher for a like and one lower for an unlike; what
    it returns is what [getLikeStatus] says afterwards; and storage still
    holds at most one like per reader and post. *)
Theorem toggleLike_flips_status (stored : option (list Likes.Like))
    (postId userId : string) :
  userId <> EmptyString -> NoDup (getStorage stored) ->
  let before := getLikeStatus stored postId (Some userId) in
  let after := toggleLike stored postId userId in
  liked (snd after) = negb (liked before) /\
  (liked before = false -> count (snd after) = S (count before)) /\
  (liked before = true -> count before = S (count (snd after))) /\
  getLikeStatus (fst after) postId (Some userId) = snd after /\
  NoDup (getStorage (fst after)).
Proof.
  intros Hu Hnd. cbv zeta. apply String.eqb_neq in Hu.
  unfold getLikeStatus. rewrite Hu.
  destruct (toggleLike_shape stored postId userId)
    as [[Hall Htoggle]|(pre & suf & Hl & Hpre & Hcount & Htoggle)];
    rewrite Htoggle; simpl.
  - rewrite (existsb_none _ _ Hall). repeat split; try discriminate.
    + rewrite existsb_app. simpl. rewrite sameLike_refl.
      rewrite likesOfPost_app. unfold likesOfPost at 2. simpl.
      rewrite String.eqb_refl, orb_true_r. simpl. f_equal. lia.
    + apply NoDup_app; [exact Hnd|repeat constructor; intros []|].
      intros l Hin [<-|[]]. pose proof (Hall _ Hin) as Hf.
      rewrite sameLike_refl in Hf. discriminate Hf.
  - rewrite Hl in *. rewrite existsb_app. simpl. rewrite sameLike_refl, orb_true_r.
    rewrite (removed_like_is_gone pre suf postId userId Hnd Hpre).
    repeat split; try discriminate; try (intros _; exact Hcount).
    eapply NoDup_remove_1, Hnd.
Qed.

Lemma toggleLike_flips_status_witness :
  NoDup [Likes.mk "1" "u7k2"; Likes.mk "2" "u7k2"] /\
  getLikeStatus (fst (toggleLike (Some [Likes.mk "1" "u7k2"; Likes.mk "2" "u7k2"])
                                 "1" "u7k2"))
                "1" (Some "u7k2")
  = mkLikeStatus false 0.
Proof.
  assert (Hnd : NoDup (getStorage (Some [Likes.mk "1" "u7k2"; Likes.mk "2" "u7k2"]))).
  { simpl. repeat constructor; simpl; intuition discriminate. }
  assert (Hu : "u7k2" <> EmptyString) by discriminate.
  split; [exact Hnd|].
  exact (proj1 (proj2 (proj2 (proj2
           (toggleLike_flips_status _ "1" "u7k2" Hu Hnd))))).
Defined.

Lemma toggleLike_absent (stored : option (list Likes.Like)) (postId userId : string) :
  (forall l, In l (getStorage stored) -> sameLike postId userId l = false) ->
  toggleLike stored postId userId
  = (Some (getStorage stored ++ [Likes.mk postId userId]),
     mkLikeStatus true (S (likesOfPost postId (getStorage stored)))).
Proof.
  intros Hall.
  destruct (toggleLike_shape stored postId userId)
    as [[_ Htoggle]|(pre & suf & Hl & _)]; [exact Htoggle|].
  exfalso. pose proof (Hall (Likes.mk postId userId)) as Hf.
  rewrite sameLike_refl, Hl in Hf.
  discriminate Hf. apply in_or_app. right. now left.
Qed.

Lemma toggleLike_present (pre suf : list Likes.Like) (postId userId : string) :
  (forall l, In l pre -> sameLike postId userId l = false) ->
  toggleLike (Some (pre ++ Likes.mk postId userId :: suf)) postId userId
  = (Some (pre ++ suf), mkLikeStatus false (likesOfPost postId (pre ++ suf))).
Proof.
  intros Hpre. unfold toggleLike. simpl getStorage.
  rewrite (findIndex_middle _ pre suf _ Hpre (sameLike_refl postId userId)).
  destruct (Z.of_nat (List.length pre) >=? 0)%Z eqn:E;
    [|rewrite Z.geb_leb in E; apply Z.leb_gt in E; lia].
  now rewrite splice_remove_middle.
Qed.

(** X24. For a reader whose identifier is not empty, when local storage
    holds at most one like per reader and post, two toggles in a row end
    where they started: the second one returns the
    status and count [getLikeStatus] gave before the first, and if the
    reader had not liked the post, storage is exactly what it was. *)
Theorem toggleLike_twice (stored : option (list Likes.Like))
    (postId userId : string) :
  userId <> EmptyString -> NoDup (getStorage stored) ->
  let once := toggleLike stored postId userId in
  let twice := toggleLike (fst once) postId userId in
  snd twice = getLikeStatus stored postId (Some userId) /\
  (liked (getLikeStatus stored postId (Some userId)) = false ->
   fst twice = Some (getStorage stored)).
Proof.
  intros Hu Hnd. cbv zeta. apply String.eqb_neq in Hu.
  unfold getLikeStatus. rewrite Hu.
  destruct (toggleLike_shape stored postId userId)
    as [[Hall Htoggle]|(pre & suf & Hl & Hpre & Hcount & Htoggle)];
    rewrite Htoggle; cbn [fst snd].
  - rewrite (toggleLike_present (getStorage stored) [] postId userId Hall).
    cbn [fst snd liked count].
    rewrite app_nil_r, (existsb_none _ _ Hall). split; reflexivity.
  - pose proof (removed_like_is_gone pre suf postId userId) as Hgone.
    rewrite <- Hl in Hgone. specialize (Hgone Hnd Hpre).
    assert (Hall : forall l, In l (getStorage (Some (pre ++ suf))) ->
                             sameLike postId userId l = false).
    { intros l Hin. simpl in Hin.
      destruct (sameLike postId userId l) eqn:E; [|reflexivity].
      assert (existsb (sameLike postId userId) (pre ++ suf) = true)
        by (apply existsb_exists; now exists l).
      congruence. }
    rewrite (toggleLike_absent (Some (pre ++ suf)) postId userId Hall).
    cbn [fst snd liked count getStorage].
    assert (Hwas : existsb (sameLike postId userId) (getStorage stored) = true).
    { rewrite Hl, existsb_app. simpl. now rewrite sameLike_refl, orb_true_r. }
    rewrite Hwas, Hcount. split; [reflexivity|discriminate].
Qed.

Lemma toggleLike_twice_witness :
  NoDup [Likes.mk "1" "u7k2"; Likes.mk "2" "u7k2"] /\
  snd (toggleLike (fst (toggleLike (Some [Likes.mk "1" "u7k2"; Likes.mk "2" "u7k2"])
                                   "2" "u7k2")) "2" "u7k2")
  = mkLikeStatus true 1.
Proof.
  assert (Hnd : NoDup (getStorage (Some [Likes.mk "1" "u7k2"; Likes.mk "2" "u7k2"]))).
  { simpl. repeat constructor; simpl; intuition discriminate. }
  assert (Hu : "u7k2" <> EmptyString) by discriminate.
  split; [exact Hnd|].
  exact (proj1 (toggleLike_twice _ "2" "u7k2" Hu Hnd)).
Defined.

(** The identifier has to be non-empty: [getLikeStatus] takes an empty
    [userId] for a missing one and reports "not liked", whatever is stored.
    A registration for which [Math.random] printed "0" gets such an
    identifier. *)
Example toggleLike_empty_reader_identifier :
  newId "0" = EmptyString /\
  snd (toggleLike None "1" EmptyString) = mkLikeStatus true 1 /\
  getLikeStatus (fst (toggleLike None "1" EmptyString)) "1" (Some EmptyString)
  = mkLikeStatus false 1.
Proof. repeat split. Qed.

(** X25. A toggle touches nothing else: the count of any other post, and
    whether any other reader likes the post, or this reader another post,
    are what they were. *)
Theorem toggleLike_leaves_others (stored : option (list Likes.Like))
    (postId userId otherPost : string) (otherUser : option string) :
  let after := fst (toggleLike stored postId userId) in
  (otherPost <> postId ->
   count (getLikeStatus after otherPost otherUser)
   = count (getLikeStatus stored otherPost otherUser)) /\
  (forall u, otherUser = Some u -> otherPost <> postId \/ u <> userId ->
   liked (getLikeStatus after otherPost otherUser)
   = liked (getLikeStatus stored otherPost otherUser)).
Proof.
  cbv zeta.
  destruct (toggleLike_shape stored postId userId)
    as [[Hall Htoggle]|(pre & suf & Hl & Hpre & Hcount & Htoggle)];
    rewrite Htoggle; simpl fst; unfold getLikeStatus; simpl getStorage; simpl count; simpl liked.
  - split.
    + intros Hp. apply not_eq_sym in Hp. apply String.eqb_neq in Hp.
      rewrite likesOfPost_app. unfold likesOfPost at 2. simpl. rewrite Hp. simpl. lia.
    + intros u -> Hother. destruct (u =? EmptyString); [reflexivity|].
      rewrite existsb_app. simpl. rewrite orb_false_r.
      assert (Hnew : sameLike otherPost u (Likes.mk postId userId) = false).
      { unfold sameLike. simpl. apply andb_false_iff.
        destruct Hother as [H|H]; [left|right];
          apply String.eqb_neq; congruence. }
      rewrite Hnew. apply orb_false_r.
  - rewrite Hl. split.
    + intros Hp. apply not_eq_sym in Hp. apply String.eqb_neq in Hp.
      rewrite !likesOfPost_app. unfold likesOfPost at 4. simpl. now rewrite Hp.
    + intros u -> Hother. destruct (u =? EmptyString); [reflexivity|].
      rewrite !existsb_app. simpl.
      assert (Hnew : sameLike otherPost u (Likes.mk postId userId) = false).
      { unfold sameLike. simpl. apply andb_false_iff.
        destruct Hother as [H|H]; [left|right];
          apply String.eqb_neq; congruence. }
      now rewrite Hnew.
Qed.

(** X26. For a user whose identifier is not empty, when the like button
    shows what [getLikeStatus] says (and storage holds at most one like per
    reader and post), the count and state it
    shows at once after a click are the ones the service then returns. *)
Theorem handleToggle_guess_is_right (user : Users.User) (button : LikeButton)
    (stored : option (list Likes.Like)) (postId : string) :
  Users.id user <> EmptyString -> NoDup (getStorage stored) ->
  shownLikes button
    = Z.of_nat (count (getLikeStatus stored postId (Some (Users.id user)))) ->
  shownLiked button = liked (getLikeStatus stored postId (Some (Users.id user))) ->
  exists shown,
    handleToggle (Some user) button stored postId
    = Toggled shown shown (fst (toggleLike stored postId (Users.id user))) /\
    shownLiked shown = negb (shownLiked button).
Proof.
  intros Hu Hnd Hlikes Hliked. apply String.eqb_neq in Hu.
  unfold handleToggle. rewrite Hlikes, Hliked.
  unfold getLikeStatus. rewrite Hu. simpl count. simpl liked.
  destruct (toggleLike_shape stored postId (Users.id user))
    as [[Hall Htoggle]|(pre & suf & Hl & Hpre & Hcount & Htoggle)];
    rewrite Htoggle; cbn [fst snd liked count].
  - rewrite (existsb_none _ _ Hall). cbn -[Z.of_nat Z.add Z.sub].
    exists (mkLikeButton (Z.of_nat (S (likesOfPost postId (getStorage stored)))) true).
    split; [|reflexivity].
    f_equal. f_equal. lia.
  - assert (Hwas : existsb (sameLike postId (Users.id user)) (getStorage stored) = true).
    { rewrite Hl, existsb_app. simpl. now rewrite sameLike_refl, orb_true_r. }
    rewrite Hwas, Hcount. cbn -[Z.of_nat Z.add Z.sub].
    exists (mkLikeButton (Z.of_nat (likesOfPost postId (pre ++ suf))) false).
    split; [|reflexivity].
    f_equal. f_equal. lia.
Qed.

Lemma handleToggle_guess_is_right_witness :
  NoDup [Likes.mk "1" "u7k2"] /\
  exists shown,
    handleToggle (Some reader) (mkLikeButton 1 true)
                 (Some [Likes.mk "1" "u7k2"]) "1"
    = Toggled shown shown (Some []).
Proof.
  assert (Hnd : NoDup (getStorage (Some [Likes.mk "1" "u7k2"]))).
  { simpl. repeat constructor. intros []. }
  assert (Hu : Users.id reader <> EmptyString) by discriminate.
  split; [exact Hnd|].
  destruct (handleToggle_guess_is_right reader (mkLikeButton 1 true)
              (Some [Likes.mk "1" "u7k2"]) "1" Hu Hnd eq_refl eq_refl)
    as (shown & Hshown & _).
  exists shown. exact Hshown.
Defined.

(** ** Accounts *)

(** X27. Registering with an address that is neither the administrator's
    nor taken stores the account, and logging in with the same address and
    password then succeeds and returns the very user the registration
    returned, who is not an administrator.  A second registration with that
    address fails with "User already exists" and stores nothing. *)
Theorem register_then_login (adminEmail adminPassword : string)
    (encodeURIComponent : string -> string)
    (stored : option (list Users.StoredUser))
    (name email password rnd name2 password2 rnd2 : string) :
  email <> adminEmail ->
  find (fun u => Users.s_email u =? email) (getStorage stored) = None ->
  exists stored' user,
    registerUser adminEmail encodeURIComponent stored name email password rnd
    = (Some stored', Ok user) /\
    loginUser adminEmail adminPassword (Some stored') email password = Ok user /\
    Users.isAdmin user = Some false /\
    registerUser adminEmail encodeURIComponent (Some stored') name2 email password2 rnd2
    = (Some stored', Throw "User already exists").
Proof.
  intros Hadmin Hfree. apply String.eqb_neq in Hadmin.
  unfold registerUser, loginUser. rewrite Hadmin, Hfree.
  eexists _, _. split; [reflexivity|].
  simpl getStorage.
  assert (Hskip : forall (q : Users.StoredUser -> bool),
             (forall y, q y = true -> (Users.s_email y =? email) = true) ->
             forall y, In y (getStorage stored) -> q y = false).
  { intros q Hq y Hy. destruct (q y) eqn:E; [|reflexivity].
    apply Hq in E. rewrite (find_none _ _ Hfree y Hy) in E. discriminate E. }
  split; [|split; [reflexivity|]].
  - rewrite find_skip.
    + simpl. now rewrite !String.eqb_refl.
    + apply Hskip. intros y Hy. now apply andb_true_iff in Hy.
  - rewrite find_skip by (apply Hskip; auto).
    simpl. now rewrite String.eqb_refl.
Qed.

Lemma register_then_login_witness :
  "mira@example.org" <> "admin@example.org" /\
  exists stored' user,
    registerUser "admin@example.org" (fun s => s) None
                 "Mira" "mira@example.org" "correct horse" "0.u7k2m9x4pd1"
    = (Some stored', Ok user) /\
    loginUser "admin@example.org" "battery staple" (Some stored')
              "mira@example.org" "correct horse" = Ok user.
Proof.
  assert (H : "mira@example.org" <> "admin@example.org") by discriminate.
  split; [exact H|].
  destruct (register_then_login "admin@example.org" "battery staple" (fun s => s)
              None "Mira" "mira@example.org" "correct horse" "0.u7k2m9x4pd1"
              "Mira" "other" "0.x" H eq_refl)
    as (stored' & user & Hreg & Hlogin & _).
  exists stored', user. split; [exact Hreg|exact Hlogin].
Defined.

(** X28. Administrator rights come from the built-in credentials only: a
    login returns a user with [isAdmin] true exactly when the address and
    the password are the administrator's, whatever local storage holds;
    with the administrator's address and another password it fails; and
    nobody can register the administrator's address. *)
Theorem admin_only_by_credentials (adminEmail adminPassword : string)
    (encodeURIComponent : string -> string)
    (stored : option (list Users.StoredUser))
    (name email password rnd : string) :
  (forall user,
      loginUser adminEmail adminPassword stored email password = Ok user ->
      (Users.isAdmin user = Some true <->
       email = adminEmail /\ password = adminPassword)) /\
  (email = adminEmail -> password <> adminPassword ->
   loginUser adminEmail adminPassword stored email password
   = Throw "Invalid password for admin account") /\
  registerUser adminEmail encodeURIComponent stored name adminEmail password rnd
  = (stored, Throw "This email is reserved for the administrator.").
Proof.
  split; [|split].
  - intros user Hlogin. unfold loginUser in Hlogin.
    destruct (email =? adminEmail) eqn:Ee.
    + apply String.eqb_eq in Ee.
      destruct (password =? adminPassword) eqn:Ep; [|discriminate Hlogin].
      apply String.eqb_eq in Ep. injection Hlogin as <-. simpl. tauto.
    + apply String.eqb_neq in Ee.
      destruct (find _ _); [|discriminate Hlogin].
      injection Hlogin as <-. simpl. split; [discriminate|tauto].
  - intros -> Hp. apply String.eqb_neq in Hp.
    unfold loginUser. now rewrite String.eqb_refl, Hp.
  - unfold registerUser. now rewrite String.eqb_refl.
Qed.

(** ** Comments *)

Lemma insertSorted_permutation {A : Type} (compareFn : A -> A -> Z) (x : A)
    (l : list A) :
  Permutation (x :: l) (insertSorted compareFn x l).
Proof.
  induction l as [|y l IH]; simpl; [reflexivity|].
  destruct (compareFn x y <=? 0)%Z; [reflexivity|].
  rewrite perm_swap. now constructor.
Qed.

Lemma sortWith_permutation {A : Type} (compareFn : A -> A -> Z) (l : list A) :
  Permutation l (sortWith compareFn l).
Proof.
  induction l as [|x l IH]; simpl; [reflexivity|].
  rewrite <- insertSorted_permutation. now constructor.
Qed.

Section CommentFacts.
Variable getTime : string -> Z.

Lemma insertSorted_newestFirst (x : Comments.Comment) (l : list Comments.Comment) :
  Sorted (notOlder getTime) l -> Sorted (notOlder getTime) (insertSorted (newestFirst getTime) x l).
Proof.
  induction l as [|y l IH]; intros Hs; simpl.
  - repeat constructor.
  - unfold newestFirst at 1.
    destruct (_ <=? 0)%Z eqn:E.
    + apply Z.leb_le in E. constructor; [exact Hs|].
      constructor. unfold notOlder. lia.
    + apply Z.leb_gt in E. inversion Hs as [|? ? Hl Hhd]; subst.
      constructor; [now apply IH|].
      destruct l as [|z l]; simpl.
      * constructor. unfold notOlder. lia.
      * destruct (newestFirst getTime x z <=? 0)%Z.
        -- constructor. unfold notOlder. lia.
        -- inversion Hhd; subst. now constructor.
Qed.

Lemma sortWith_newestFirst (l : list Comments.Comment) :
  Sorted (notOlder getTime) (sortWith (newestFirst getTime) l).
Proof.
  induction l as [|x l IH]; simpl; [constructor|].
  now apply insertSorted_newestFirst.
Qed.

(** A comment newer than all the others is sorted to the front. *)
Lemma sortWith_newest_last (l : list Comments.Comment) (x : Comments.Comment) :
  (forall c, In c l ->
     (getTime (Comments.createdAt c) < getTime (Comments.createdAt x))%Z) ->
  sortWith (newestFirst getTime) (l ++ [x])
  = x :: sortWith (newestFirst getTime) l.
Proof.
  induction l as [|c l IH]; intros Hnew; [reflexivity|].
  simpl. rewrite IH by (intros c' Hc'; apply Hnew; now right).
  simpl. unfold newestFirst at 1.
  pose proof (Hnew c (or_introl eq_refl)) as Hc.
  destruct (_ <=? 0)%Z eqn:E; [apply Z.leb_le in E; lia|reflexivity].
Qed.

(** X29. [getComments] returns the stored comments of the post, each as
    often as it is stored and no other, ordered from the newest to the
    oldest. *)
Theorem getComments_sorted (stored : option (list Comments.Comment))
    (postId : string) :
  Permutation (filter (fun c => Comments.postId c =? postId) (getStorage stored))
              (getComments getTime stored postId) /\
  Sorted (notOlder getTime) (getComments getTime stored postId) /\
  (forall c, In c (getComments getTime stored postId) ->
             In c (getStorage stored) /\ Comments.postId c = postId).
Proof.
  unfold getComments. split; [apply sortWith_permutation|].
  split; [apply sortWith_newestFirst|].
  intros c Hc.
  apply (Permutation_in c (Permutation_sym (sortWith_permutation _ _))) in Hc.
  apply filter_In in Hc. destruct Hc as [Hin Hp].
  split; [exact Hin|now apply String.eqb_eq].
Qed.

(** X30. When the comment section shows what [getComments] returns and the
    new comment is later than every stored comment of the post, the list
    the section shows after posting (the new comment put first) is what
    [getComments] returns from then on, and the comments of every other
    post are returned as before. *)
Theorem posted_comment_is_shown_first (trim : string -> string)
    (user : Users.User) (newComment : string)
    (stored : option (list Comments.Comment)) (postId rnd now : string) :
  trim newComment <> EmptyString ->
  (forall c, In c (getStorage stored) -> Comments.postId c = postId ->
             (getTime (Comments.createdAt c) < getTime now)%Z) ->
  exists shown stored',
    handleSubmit trim (Some user) newComment (getComments getTime stored postId)
                 stored postId rnd now
    = Some (shown, EmptyString, stored') /\
    shown = getComments getTime stored' postId /\
    forall other, other <> postId ->
                  getComments getTime stored' other
                  = getComments getTime stored other.
Proof.
  intros Htext Hlater. apply String.eqb_neq in Htext.
  unfold handleSubmit, addComment. rewrite Htext.
  eexists _, _. split; [reflexivity|]. unfold getComments. simpl getStorage.
  split.
  - rewrite filter_app. simpl. rewrite String.eqb_refl.
    rewrite sortWith_newest_last; [reflexivity|].
    intros c Hc. apply filter_In in Hc. destruct Hc as [Hin Hp].
    apply String.eqb_eq in Hp. simpl. now apply Hlater.
  - intros other Hother. apply not_eq_sym in Hother.
    apply String.eqb_neq in Hother.
    rewrite filter_app. simpl. rewrite Hother. now rewrite app_nil_r.
Qed.
End CommentFacts.

Lemma posted_comment_is_shown_first_witness :
  (fun s : string => s) "Lovely photographs." <> EmptyString /\
  getComments epochMs (Some storedComments) "1"
  = [nth 2 storedComments firstComment; firstComment] /\
  (forall c, In c (getStorage (Some storedComments)) ->
             Comments.postId c = "1" ->
             (epochMs (Comments.createdAt c)
              < epochMs "2024-01-03T08:00:00.000Z")%Z) /\
  exists shown stored',
    handleSubmit (fun s => s) (Some reader) "Lovely photographs."
                 (getComments epochMs (Some storedComments) "1")
                 (Some storedComments) "1" "0.c4r8t2w6y0a"
                 "2024-01-03T08:00:00.000Z"
    = Some (shown, EmptyString, stored') /\
    shown = getComments epochMs stored' "1" /\
    List.length shown = 3%nat.
Proof.
  assert (Htext : (fun s : string => s) "Lovely photographs." <> EmptyString)
    by discriminate.
  assert (Hlater : forall c, In c (getStorage (Some storedComments)) ->
             Comments.postId c = "1" ->
             (epochMs (Comments.createdAt c)
              < epochMs "2024-01-03T08:00:00.000Z")%Z).
  { intros c Hin Hp. simpl in Hin.
    destruct Hin as [<-|[<-|[<-|[]]]]; try reflexivity.
    discriminate Hp. }
  split; [exact Htext|]. split; [reflexivity|]. split; [exact Hlater|].
  destruct (posted_comment_is_shown_first epochMs (fun s => s) reader
              "Lovely photographs." (Some storedComments) "1"
              "0.c4r8t2w6y0a" "2024-01-03T08:00:00.000Z" Htext Hlater)
    as (shown & stored' & Hsubmit & Hshown & _).
  exists shown, stored'. split; [exact Hsubmit|]. split; [exact Hshown|].
  unfold handleSubmit, addComment in Hsubmit. simpl in Hsubmit.
  injection Hsubmit as <- _. reflexivity.
Defined.
